(** * quelpoke: a name is hashed to a Pokemon number, the Pokemon is fetched
    from the PokeAPI and rendered.

    This development embeds [main.go] and states the properties of its
    specification over the embedding.

    - Go strings are byte sequences: [string] (a list of [ascii] bytes).
    - [uint64] and [uint32] values are [Z] with the wrap-around written out.
    - A Go [map[string]int] is a [gmap string Z].
    - A run-time panic is an explicit outcome.
    - The library calls of [main.go] ([crypto/sha1], [encoding/binary],
      [encoding/json], [strings.ToUpper], the response writer of [net/http])
      are modelled as Go 1.22, the version of the Dockerfile, runs them.
    - The network, the embedded template, the environment, the text of
      errors and the Unicode key folding of [encoding/json] are variables
      of a section: the code is verified against every behaviour of them. *)

From Stdlib Require Import ZArith List String Ascii Lia Bool.
From stdpp Require Import base option list gmap strings pretty.
Import ListNotations.

Local Open Scope string_scope.
Local Open Scope list_scope.
Local Open Scope Z_scope.

(** ** Go run-time outcomes *)

(** A Go call either returns or panics. *)
Inductive outcome (A : Type) : Type :=
  | Returns (a : A)
  | Panics (why : string).
Arguments Returns {A} a.
Arguments Panics {A} why.

(** [[]byte(s)]: the bytes of a Go string, as numbers below 256. *)
Fixpoint bytes (s : string) : list Z :=
  match s with
  | EmptyString => []
  | String a s' => Z.of_N (N_of_ascii a) :: bytes s'
  end.

(** The range of a byte. *)
Definition is_byte (b : Z) : Prop := 0 <= b < 256.

(** ** crypto/sha1 *)

Module sha1.

Definition u32 (x : Z) : Z := x mod 2 ^ 32.

(** [bits.RotateLeft32]. *)
Definition RotateLeft32 (x : Z) (k : Z) : Z :=
  u32 (Z.lor (Z.shiftl x k) (Z.shiftr x (32 - k))).

(** [^b] on a [uint32]. *)
Definition not32 (b : Z) : Z := Z.lxor b 0xFFFFFFFF.

Definition init0 : Z := 0x67452301.
Definition init1 : Z := 0xEFCDAB89.
Definition init2 : Z := 0x98BADCFE.
Definition init3 : Z := 0x10325476.
Definition init4 : Z := 0xC3D2E1F0.

Definition _K0 : Z := 0x5A827999.
Definition _K1 : Z := 0x6ED9EBA1.
Definition _K2 : Z := 0x8F1BBCDC.
Definition _K3 : Z := 0xCA62C1D6.

Definition Size : nat := 20.
Definition chunk : nat := 64.

(** The five chaining words [h[0..4]] of the digest. *)
Record digest : Type := Digest { h0 : Z; h1 : Z; h2 : Z; h3 : Z; h4 : Z }.

Definition New : digest := Digest init0 init1 init2 init3 init4.

(** [uint32(p[j])<<24 | uint32(p[j+1])<<16 | uint32(p[j+2])<<8 | uint32(p[j+3])] *)
Definition word_at (p : list Z) (j : nat) : Z :=
  Z.lor (Z.lor (Z.lor (u32 (Z.shiftl (nth j p 0) 24))
                      (u32 (Z.shiftl (nth (j + 1) p 0) 16)))
               (u32 (Z.shiftl (nth (j + 2) p 0) 8)))
        (nth (j + 3) p 0).

(** The sixteen words of a block. *)
Definition block_words (p : list Z) : list Z :=
  map (fun i => word_at p (i * 4)) (seq 0 16).

(** Message schedule: [win] holds the sixteen most recent words, oldest
    first; the next one is
    [RotateLeft32(w[i-3] ^ w[i-8] ^ w[i-14] ^ w[i-16], 1)]. *)
Fixpoint expand (n : nat) (win : list Z) : list Z :=
  match n with
  | O => []
  | S n' =>
      let tmp := Z.lxor (Z.lxor (Z.lxor (nth 13 win 0) (nth 8 win 0))
                                (nth 2 win 0)) (nth 0 win 0) in
      let x := RotateLeft32 tmp 1 in
      x :: expand n' (tl win ++ [x])
  end.

Definition schedule (p : list Z) : list Z :=
  let ws := block_words p in ws ++ expand 64 ws.

(** The round function and constant of round [i]. *)
Definition round_f (i : nat) (b c d : Z) : Z :=
  if (i <? 20)%nat then Z.lor (Z.land b c) (Z.land (not32 b) d)
  else if (i <? 40)%nat then Z.lxor (Z.lxor b c) d
  else if (i <? 60)%nat then Z.lor (Z.land (Z.lor b c) d) (Z.land b c)
  else Z.lxor (Z.lxor b c) d.

Definition round_k (i : nat) : Z :=
  if (i <? 20)%nat then _K0
  else if (i <? 40)%nat then _K1
  else if (i <? 60)%nat then _K2
  else _K3.

(** One round:
    [t := RotateLeft32(a, 5) + f + e + w[i] + K;
     a, b, c, d, e = t, a, RotateLeft32(b, 30), c, d]. *)
Definition round (st : digest) (iw : nat * Z) : digest :=
  let '(i, w) := iw in
  let '(Digest a b c d e) := st in
  let t := u32 (RotateLeft32 a 5 + round_f i b c d + e + w + round_k i) in
  Digest t a (RotateLeft32 b 30) c d.

(** [blockGeneric] on one 64-byte chunk. *)
Definition block1 (dig : digest) (p : list Z) : digest :=
  let st := fold_left round (combine (seq 0 80) (schedule p)) dig in
  Digest (u32 (h0 dig + h0 st)) (u32 (h1 dig + h1 st)) (u32 (h2 dig + h2 st))
         (u32 (h3 dig + h3 st)) (u32 (h4 dig + h4 st)).

(** [blockGeneric]: [for len(p) >= chunk { ...; p = p[chunk:] }]; [n] bounds
    the number of chunks. *)
Fixpoint block (n : nat) (dig : digest) (p : list Z) : digest :=
  match n with
  | O => dig
  | S n' =>
      if (chunk <=? List.length p)%nat
      then block n' (block1 dig (firstn chunk p)) (skipn chunk p)
      else dig
  end.

(** [binary.BigEndian.PutUint64]. *)
Definition PutUint64 (v : Z) : list Z :=
  map (fun k => Z.shiftr v (8 * Z.of_nat k) mod 256) [7; 6; 5; 4; 3; 2; 1; 0]%nat.

(** [binary.BigEndian.PutUint32]. *)
Definition PutUint32 (v : Z) : list Z :=
  map (fun k => Z.shiftr v (8 * Z.of_nat k) mod 256) [3; 2; 1; 0]%nat.

(** The padding of [checkSum]: a 0x80 byte, zeros up to 56 mod 64, then
    the length in bits as a big-endian [uint64]. *)
Definition padding (len : Z) : list Z :=
  let t := if len mod 64 <? 56 then 56 - len mod 64 else 64 + 56 - len mod 64 in
  (0x80 :: repeat 0 (Z.to_nat t - 1)) ++ PutUint64 (Z.shiftl len 3 mod 2 ^ 64).

(** [h := sha1.New(); h.Write(data); h.Sum(nil)]: the twenty bytes of the
    digest of [data]. *)
Definition Sum (data : list Z) : list Z :=
  let p := data ++ padding (Z.of_nat (List.length data)) in
  let d := block (List.length p / chunk) New p in
  PutUint32 (h0 d) ++ PutUint32 (h1 d) ++ PutUint32 (h2 d)
    ++ PutUint32 (h3 d) ++ PutUint32 (h4 d).

End sha1.

(** ** encoding/binary *)

Module binary.

Definition u64 (x : Z) : Z := x mod 2 ^ 64.

(** [BigEndian.Uint64]:
    [_ = b[7]; return uint64(b[7]) | uint64(b[6])<<8 | ... | uint64(b[0])<<56].
    The bounds check panics on fewer than eight bytes. *)
Definition BigEndian_Uint64 (b : list Z) : outcome Z :=
  match b with
  | b0 :: b1 :: b2 :: b3 :: b4 :: b5 :: b6 :: b7 :: _ =>
      Returns
        (Z.lor (Z.lor (Z.lor (Z.lor (Z.lor (Z.lor (Z.lor
           b7
           (u64 (Z.shiftl b6 8)))
           (u64 (Z.shiftl b5 16)))
           (u64 (Z.shiftl b4 24)))
           (u64 (Z.shiftl b3 32)))
           (u64 (Z.shiftl b2 40)))
           (u64 (Z.shiftl b1 48)))
           (u64 (Z.shiftl b0 56)))
  | _ => Panics "index out of range"
  end.

End binary.

(** ** The name hasher *)

(** [func pokemonID(name string, m uint64) uint64]:
    [binary.BigEndian.Uint64(h.Sum(nil))%m + 1]. *)
Definition pokemonID (name : string) (m : Z) : outcome Z :=
  match binary.BigEndian_Uint64 (sha1.Sum (bytes name)) with
  | Panics why => Panics why
  | Returns x =>
      if m =? 0 then Panics "integer divide by zero"
      else Returns (binary.u64 (x mod m + 1))
  end.

(** The integer of the specification: "interpret the first 8 bytes of the
    digest as a big-endian unsigned 64-bit integer". *)
Definition big_endian (bs : list Z) : Z :=
  fold_left (fun acc b => acc * 256 + b) bs 0.

(** The identifier as the specification words it: digest, first eight
    bytes, big-endian integer, [mod modulus], plus one. *)
Definition spec_id (name : string) (modulus : Z) : Z :=
  big_endian (firstn 8 (sha1.Sum (bytes name))) mod modulus + 1.

(** ** encoding/json

    [Decode] on the kinds of target that [main.go] declares: strings, an
    [int], structs with tagged fields and slices of structs. A value of
    the wrong kind for its target is skipped and saves an
    [UnmarshalTypeError]; decoding goes on after it. A struct is decoded
    member by member into the fields it already holds, a slice element by
    element into the elements its backing array already holds. *)

(** A number literal: an integer literal, or one with a fraction or an
    exponent (which [strconv.ParseInt] refuses). *)
Inductive number : Type :=
  | NInt (z : Z)
  | NFrac.

Local Set Warnings "-register-all".

(** A JSON value, as the decoder scans it; the members of an object keep
    their order and their duplicates. *)
Inductive json : Type :=
  | JNull
  | JBool (b : bool)
  | JNumber (n : number)
  | JString (s : string)
  | JArray (items : list json)
  | JObject (members : list (string * json)).

(** Go [error] values met in this program. *)
Inductive error : Type :=
  | GetError (msg : string)
  | SyntaxError (msg : string)
  | UnmarshalTypeError (value : json)
  | TemplateError (msg : string).

(** A response body, as [Decoder.Decode] reads it: its first JSON value,
    or the error of the scanner when it has none. *)
Inductive body : Type :=
  | NotJSON (err : error)
  | Doc (j : json).

(** The outcome of an [http.Get] that returns: [(resp, err)]. Only
    [resp.Body] is read. A request that never answers (the default client
    has no timeout) has no outcome here: it stalls the handler, and every
    property below is about requests that return. *)
Inductive get_result : Type :=
  | GetFails (err : error)
  | GetReturns (b : body).

(** A Go slice during decoding: its elements, and what an earlier, longer
    content left in the backing array behind them. *)
Record slice (E : Type) : Type := Slice { elems : list E; spare : list E }.
Arguments Slice {E} elems spare.
Arguments elems {E} s.
Arguments spare {E} s.

Definition nil_slice {E : Type} : slice E := Slice [] [].

(** [Decode] stores into a Go value and reports the first error it saved. *)
Definition decoder (T : Type) : Type := json -> T -> T * option error.

(** [d.saveError]: the first error is kept. *)
Definition saveError (saved new : option error) : option error :=
  match saved with
  | Some _ => saved
  | None => new
  end.

(** A struct field with a [json:"tag"]: how it is read, written and decoded. *)
Record field (T : Type) : Type := Field {
  tag : string;
  ftype : Type;
  get : T -> ftype;
  set : ftype -> T -> T;
  dec : decoder ftype
}.
Arguments Field {T} tag {ftype} get set dec.
Arguments tag {T} f.
Arguments ftype {T} f.
Arguments get {T} f v.
Arguments set {T} f x v.
Arguments dec {T} f j cur.

(** Decoding a member's value into its field of [v]. *)
Definition store {T : Type} (f : field T) (j : json) (v : T) : T * option error :=
  let '(x, e) := dec f j (get f v) in (set f x v, e).

(** A JSON string into a Go [string]; [null] leaves the target as it is. *)
Definition dec_string : decoder string :=
  fun j cur =>
    match j with
    | JNull => (cur, None)
    | JString s => (s, None)
    | _ => (cur, Some (UnmarshalTypeError j))
    end.

(** A JSON number into a Go [int] (64 bits). *)
Definition dec_int : decoder Z :=
  fun j cur =>
    match j with
    | JNull => (cur, None)
    | JNumber (NInt z) =>
        if (- 2 ^ 63 <=? z) && (z <? 2 ^ 63) then (z, None)
        else (cur, Some (UnmarshalTypeError j))
    | _ => (cur, Some (UnmarshalTypeError j))
    end.

(** The elements of a JSON array, each decoded into the element the backing
    array holds at its index (a zero element beyond it). *)
Fixpoint array_elems {E : Type} (zero : E) (d : decoder E)
    (items : list json) (backing : list E) : list E * list E * option error :=
  match items with
  | [] => ([], backing, None)
  | j :: items' =>
      let '(x, e) := d j (hd zero backing) in
      let '(xs, rest, e') := array_elems zero d items' (tl backing) in
      (x :: xs, rest, saveError e e')
  end.

(** A JSON array into a Go slice: [null] gives the nil slice, [[]] a fresh
    empty one. *)
Definition dec_slice {E : Type} (zero : E) (d : decoder E) : decoder (slice E) :=
  fun j cur =>
    match j with
    | JNull => (nil_slice, None)
    | JArray [] => (nil_slice, None)
    | JArray items =>
        let '(xs, rest, e) := array_elems zero d items (elems cur ++ spare cur) in
        (Slice xs rest, e)
    | _ => (cur, Some (UnmarshalTypeError j))
    end.

(** ** The structs of [main.go] *)

(** [struct { Name string `json:"name"` }] *)
Module named.
Record t : Type := Make { Name : string }.
Definition zero : t := Make "".
End named.

(** [struct { URL string `json:"url"` }] *)
Module linked.
Record t : Type := Make { URL : string }.
Definition zero : t := Make "".
End linked.

(** An element of [Types]: [struct { Type struct { Name string } `json:"type"` }]. *)
Module typeSlot.
Record t : Type := Make { Type_ : named.t }.
Definition zero : t := Make named.zero.
End typeSlot.

(** An element of [Stats]:
    [struct { BaseStat int `json:"base_stat"`; Stat struct { Name string } `json:"stat"` }]. *)
Module statSlot.
Record t : Type := Make { BaseStat : Z; Stat : named.t }.
Definition zero : t := Make 0 named.zero.
End statSlot.

(** [struct { Front string `json:"front_default"` }] *)
Module official.
Record t : Type := Make { Front : string }.
Definition zero : t := Make "".
End official.

(** [struct { Official struct {...} `json:"official-artwork"` }] *)
Module other.
Record t : Type := Make { Official : official.t }.
Definition zero : t := Make official.zero.
End other.

(** [struct { Other struct {...} `json:"other"` }] *)
Module sprites.
Record t : Type := Make { Other : other.t }.
Definition zero : t := Make other.zero.
End sprites.

Module pokeAPIResponse.
Record t : Type := Make {
  Name : string;
  Types : slice typeSlot.t;
  Stats : slice statSlot.t;
  Sprites : sprites.t;
  Species : linked.t
}.
Definition zero : t := Make "" nil_slice nil_slice sprites.zero linked.zero.
End pokeAPIResponse.

Module pokemonData.
Record t : Type := Make {
  Name : string;
  Types : list string;
  Stats : gmap string Z;
  Sprite : string;
  Evolutions : list string
}.
Definition zero : t := Make "" [] ∅ "" [].
End pokemonData.

(** The [species] variable of [fetchEvolutions]:
    [struct { EvolutionChain struct { URL string } `json:"evolution_chain"` }]. *)
Module speciesResponse.
Record t : Type := Make { EvolutionChain : linked.t }.
Definition zero : t := Make linked.zero.
End speciesResponse.

(** A second-stage evolution: [struct { Species struct { Name string } }]. *)
Module secondStage.
Record t : Type := Make { Species : named.t }.
Definition zero : t := Make named.zero.
End secondStage.

(** A first-stage evolution: its species and its own [EvolvesTo]. *)
Module firstStage.
Record t : Type := Make { Species : named.t; EvolvesTo : slice secondStage.t }.
Definition zero : t := Make named.zero nil_slice.
End firstStage.

(** The [Chain] field: the base species and its [EvolvesTo]. *)
Module chainNode.
Record t : Type := Make { Species : named.t; EvolvesTo : slice firstStage.t }.
Definition zero : t := Make named.zero nil_slice.
End chainNode.

(** The [chain] variable of [fetchEvolutions]: [struct { Chain struct {...} `json:"chain"` }]. *)
Module chainResponse.
Record t : Type := Make { Chain : chainNode.t }.
Definition zero : t := Make chainNode.zero.
End chainResponse.

Module indexTemplateParams.
Record t : Type := Make {
  Name : string;
  Version : string;
  PokemonID : Z;
  PokemonName : string;
  Types : list string;
  Stats : gmap string Z;
  Evolutions : list string;
  PokemonSprite : string
}.
End indexTemplateParams.

(** ** net/http: the response writer *)

(** What the handler has sent: the status line, once written, and the
    bytes of the body. *)
Record ResponseWriter : Type := Writer { status : option Z; sent : string }.

Definition fresh : ResponseWriter := Writer None "".

(** [w.WriteHeader(code)]: the first status written stays. *)
Definition WriteHeader (code : Z) (w : ResponseWriter) : ResponseWriter :=
  match status w with
  | Some _ => w
  | None => Writer (Some code) (sent w)
  end.

(** [w.Write(data)]: writes the 200 status first if none was written. *)
Definition Write (data : string) (w : ResponseWriter) : ResponseWriter :=
  let w' := WriteHeader 200 w in Writer (status w') (sent w' +:+ data).

Definition newline : string := String (ascii_of_nat 10) EmptyString.

(** [http.Error(w, error, code)]: [w.WriteHeader(code); fmt.Fprintln(w, error)]. *)
Definition http_Error (w : ResponseWriter) (msg : string) (code : Z) : ResponseWriter :=
  Write (msg +:+ newline) (WriteHeader code w).

(** The status the client receives: 200 when the handler wrote none. *)
Definition status_sent (w : ResponseWriter) : Z := default 200 (status w).

(** [url.Values.Get]: the first value of the key, or the empty string. *)
Definition Values_Get (v : gmap string (list string)) (key : string) : string :=
  match v !! key with
  | Some (x :: _) => x
  | _ => ""
  end.

(** An incoming request: [r.URL.Query()]. *)
Record Request : Type := { Query : gmap string (list string) }.

(** ** strings *)

(** U+FFFD in UTF-8. *)
Definition RuneError : string :=
  String (ascii_of_nat 239) (String (ascii_of_nat 191) (String (ascii_of_nat 189) EmptyString)).

(** [strings.ToUpper] on a string of one byte [c]: an ASCII lower-case
    letter loses 32; another ASCII byte stays; a byte from 0x80 on is not
    valid UTF-8 on its own and [strings.Map] writes U+FFFD for it. *)
Definition ToUpper_1 (c : ascii) : string :=
  let n := N_of_ascii c in
  if (n <? 128)%N then
    if (97 <=? n)%N && (n <=? 122)%N
    then String (ascii_of_N (n - 32)) EmptyString
    else String c EmptyString
  else RuneError.

(** The ["title"] function of the template:
    [if s == "" { return "" }; return strings.ToUpper(s[:1]) + s[1:]]. *)
Definition title (s : string) : string :=
  match s with
  | EmptyString => ""
  | String c rest => ToUpper_1 c +:+ rest
  end.

(** ** The program against its environment *)

Section Program.

(** The key folding of [encoding/json] (case folding over Unicode). *)
Variable foldName : string -> string.

(** [http_Get n url]: what the [n]-th outbound request of a handler run
    gets when it asks for [url]. *)
Variable http_Get : nat -> string -> get_result.

(** [err.Error()]. *)
Variable Error : error -> string.

(** [os.Getenv]. *)
Variable Getenv : string -> string.

(** The parsed [index.tmpl.html]: [Execute] gets the function map and the
    parameters, makes its writes in order and may stop on an error. *)
Definition template : Type :=
  (string -> string) -> indexTemplateParams.t -> list string * option error.

(** [template.New(...).Funcs(...).ParseFS(indexTemplateFS, "index.tmpl.html")]. *)
Variable ParseFS : template + error.

(** The field a key selects: by exact name, or else by folded name. *)
Definition field_for {T : Type} (fs : list (field T)) (key : string) : option (field T) :=
  match find (fun f => bool_decide (tag f = key)) fs with
  | Some f => Some f
  | None => find (fun f => bool_decide (foldName (tag f) = foldName key)) fs
  end.

(** One member of an object: decoded into the field its key selects,
    skipped when it selects none. *)
Definition member {T : Type} (fs : list (field T))
    (acc : T * option error) (m : string * json) : T * option error :=
  match field_for fs m.1 with
  | None => acc
  | Some f => let '(v', e) := store f m.2 acc.1 in (v', saveError acc.2 e)
  end.

(** A JSON object into a Go struct, member by member; [null] leaves the
    struct as it is. *)
Definition dec_struct {T : Type} (fs : list (field T)) : decoder T :=
  fun j cur =>
    match j with
    | JNull => (cur, None)
    | JObject members => fold_left (member fs) members (cur, None)
    | _ => (cur, Some (UnmarshalTypeError j))
    end.

Definition named_fields : list (field named.t) :=
  [ Field "name" named.Name (fun x _ => named.Make x) dec_string ].

Definition linked_fields : list (field linked.t) :=
  [ Field "url" linked.URL (fun x _ => linked.Make x) dec_string ].

Definition typeSlot_fields : list (field typeSlot.t) :=
  [ Field "type" typeSlot.Type_ (fun x _ => typeSlot.Make x) (dec_struct named_fields) ].

Definition statSlot_fields : list (field statSlot.t) :=
  [ Field "base_stat" statSlot.BaseStat
      (fun x v => statSlot.Make x (statSlot.Stat v)) dec_int;
    Field "stat" statSlot.Stat
      (fun x v => statSlot.Make (statSlot.BaseStat v) x) (dec_struct named_fields) ].

Definition official_fields : list (field official.t) :=
  [ Field "front_default" official.Front (fun x _ => official.Make x) dec_string ].

Definition other_fields : list (field other.t) :=
  [ Field "official-artwork" other.Official (fun x _ => other.Make x)
      (dec_struct official_fields) ].

Definition sprites_fields : list (field sprites.t) :=
  [ Field "other" sprites.Other (fun x _ => sprites.Make x) (dec_struct other_fields) ].

Definition pokeAPIResponse_fields : list (field pokeAPIResponse.t) :=
  let M := pokeAPIResponse.Make in
  let N := pokeAPIResponse.Name in
  let T := pokeAPIResponse.Types in
  let S := pokeAPIResponse.Stats in
  let P := pokeAPIResponse.Sprites in
  let C := pokeAPIResponse.Species in
  [ Field "name" N (fun x v => M x (T v) (S v) (P v) (C v)) dec_string;
    Field "types" T (fun x v => M (N v) x (S v) (P v) (C v))
      (dec_slice typeSlot.zero (dec_struct typeSlot_fields));
    Field "stats" S (fun x v => M (N v) (T v) x (P v) (C v))
      (dec_slice statSlot.zero (dec_struct statSlot_fields));
    Field "sprites" P (fun x v => M (N v) (T v) (S v) x (C v))
      (dec_struct sprites_fields);
    Field "species" C (fun x v => M (N v) (T v) (S v) (P v) x)
      (dec_struct linked_fields) ].

Definition speciesResponse_fields : list (field speciesResponse.t) :=
  [ Field "evolution_chain" speciesResponse.EvolutionChain
      (fun x _ => speciesResponse.Make x) (dec_struct linked_fields) ].

Definition secondStage_fields : list (field secondStage.t) :=
  [ Field "species" secondStage.Species (fun x _ => secondStage.Make x)
      (dec_struct named_fields) ].

Definition firstStage_fields : list (field firstStage.t) :=
  [ Field "species" firstStage.Species
      (fun x v => firstStage.Make x (firstStage.EvolvesTo v)) (dec_struct named_fields);
    Field "evolves_to" firstStage.EvolvesTo
      (fun x v => firstStage.Make (firstStage.Species v) x)
      (dec_slice secondStage.zero (dec_struct secondStage_fields)) ].

Definition chainNode_fields : list (field chainNode.t) :=
  [ Field "species" chainNode.Species
      (fun x v => chainNode.Make x (chainNode.EvolvesTo v)) (dec_struct named_fields);
    Field "evolves_to" chainNode.EvolvesTo
      (fun x v => chainNode.Make (chainNode.Species v) x)
      (dec_slice firstStage.zero (dec_struct firstStage_fields)) ].

Definition chainResponse_fields : list (field chainResponse.t) :=
  [ Field "chain" chainResponse.Chain (fun x _ => chainResponse.Make x)
      (dec_struct chainNode_fields) ].

(** [json.NewDecoder(resp.Body).Decode(&v)]: a body with no JSON value
    leaves [v] untouched and returns the scanner's error. *)
Definition Decode {T : Type} (fs : list (field T)) (b : body) (v : T) : T * option error :=
  match b with
  | NotJSON err => (v, Some err)
  | Doc j => dec_struct fs j v
  end.

(** Lines 206-213 of [fetchEvolutions], the flattening loops:
    [evols := []string{chain.Chain.Species.Name}], then for each [e] of
    [chain.Chain.EvolvesTo] append [e.Species.Name] and, for each [f] of
    [e.EvolvesTo], append [f.Species.Name]. *)
Definition flatten (chain : chainResponse.t) : list string :=
  fold_left
    (fun evols e =>
       fold_left
         (fun evols f => evols ++ [named.Name (secondStage.Species f)])
         (elems (firstStage.EvolvesTo e))
         (evols ++ [named.Name (firstStage.Species e)]))
    (elems (chainNode.EvolvesTo (chainResponse.Chain chain)))
    [named.Name (chainNode.Species (chainResponse.Chain chain))].

(** [func fetchEvolutions(speciesURL string) []string]. It runs after the
    detail request: its requests are the second and the third of the run.
    Both [Decode] errors are dropped. *)
Definition fetchEvolutions (speciesURL : string) : list string :=
  match http_Get 1 speciesURL with
  | GetFails _ => []
  | GetReturns body1 =>
      let species := (Decode speciesResponse_fields body1 speciesResponse.zero).1 in
      match http_Get 2 (linked.URL (speciesResponse.EvolutionChain species)) with
      | GetFails _ => []
      | GetReturns body2 =>
          let chain := (Decode chainResponse_fields body2 chainResponse.zero).1 in
          flatten chain
      end
  end.

(** The URL of the detail request. *)
Definition pokemon_url (id : Z) : string :=
  "https://pokeapi.co/api/v2/pokemon/" +:+ pretty id.

(** Lines 152-164 of [fetchPokemon]: the record assembled from the decoded
    detail response. *)
Definition assemble (poke : pokeAPIResponse.t) : pokemonData.t :=
  {| pokemonData.Name := pokeAPIResponse.Name poke;
     pokemonData.Sprite :=
       official.Front (other.Official (sprites.Other (pokeAPIResponse.Sprites poke)));
     pokemonData.Stats :=
       fold_left
         (fun stats s => <[ named.Name (statSlot.Stat s) := statSlot.BaseStat s ]> stats)
         (elems (pokeAPIResponse.Stats poke)) ∅;
     pokemonData.Types :=
       fold_left
         (fun types t => types ++ [named.Name (typeSlot.Type_ t)])
         (elems (pokeAPIResponse.Types poke)) [];
     pokemonData.Evolutions :=
       fetchEvolutions (linked.URL (pokeAPIResponse.Species poke)) |}.

(** [func fetchPokemon(id uint64) (pokemonData, error)]. *)
Definition fetchPokemon (id : Z) : pokemonData.t * option error :=
  let result := pokemonData.zero in
  match http_Get 0 (pokemon_url id) with
  | GetFails err => (result, Some err)
  | GetReturns b =>
      match Decode pokeAPIResponse_fields b pokeAPIResponse.zero with
      | (_, Some err) => (result, Some err)
      | (poke, None) => (assemble poke, None)
      end
  end.

(** [func env(name string, def string) string]. *)
Definition env (name def : string) : string :=
  let v := Getenv name in
  if bool_decide (v = "") then def else v.

(** [tmpl.Execute(w, params)]: the writes reach [w] one after the other. *)
Definition Execute (tmpl : template) (w : ResponseWriter)
    (params : indexTemplateParams.t) : ResponseWriter * option error :=
  let '(writes, err) := tmpl title params in
  (fold_left (fun w data => Write data w) writes w, err).

(** [func index(w http.ResponseWriter, r *http.Request)]: what was sent,
    and the names of the final log line when it is reached. *)
Definition index (w : ResponseWriter) (r : Request)
    : outcome (ResponseWriter * option (string * string)) :=
  let name := Values_Get (Query r) "name" in
  let name := if bool_decide (name = "") then "cafard" else name in
  match ParseFS with
  | inr err => Returns (http_Error w (Error err) 500, None)
  | inl tmpl =>
      match pokemonID name 151 with
      | Panics why => Panics why
      | Returns pid =>
          match fetchPokemon pid with
          | (_, Some err) => Returns (http_Error w (Error err) 500, None)
          | (poke, None) =>
              let params :=
                {| indexTemplateParams.Name := name;
                   indexTemplateParams.Version := env "VERSION" "cafard-edition";
                   indexTemplateParams.PokemonID := pid;
                   indexTemplateParams.PokemonName := pokemonData.Name poke;
                   indexTemplateParams.Types := pokemonData.Types poke;
                   indexTemplateParams.Stats := pokemonData.Stats poke;
                   indexTemplateParams.Evolutions := pokemonData.Evolutions poke;
                   indexTemplateParams.PokemonSprite := pokemonData.Sprite poke |} in
              match Execute tmpl w params with
              | (w', Some err) => Returns (http_Error w' (Error err) 500, None)
              | (w', None) => Returns (w', Some (name, pokemonData.Name poke))
              end
          end
      end
  end.

(** ** Absent fields, as the specification names them *)

(** No member of the object selects the field tagged [key]: the field is
    absent from the response. *)
Definition missing {T : Type} (fs : list (field T)) (key : string)
    (members : list (string * json)) : Prop :=
  Forall (fun m => tag <$> field_for fs m.1 <> Some key) members.

(** ** The steps of the fetcher, as the specification names them *)

(** Step (1) fails: the detail request fails, or its response does not
    decode. *)
Definition detail_fails (id : Z) : Prop :=
  (exists err, http_Get 0 (pokemon_url id) = GetFails err)
  \/ (exists b err,
        http_Get 0 (pokemon_url id) = GetReturns b
        /\ (Decode pokeAPIResponse_fields b pokeAPIResponse.zero).2 = Some err).

(** The fetch of step (2) or of step (3) fails: the species request fails,
    or it is answered and the evolution-chain request fails. *)
Definition evolution_fetch_fails (speciesURL : string) : Prop :=
  (exists err, http_Get 1 speciesURL = GetFails err)
  \/ (exists body1 err,
        http_Get 1 speciesURL = GetReturns body1
        /\ http_Get 2
             (linked.URL (speciesResponse.EvolutionChain
                (Decode speciesResponse_fields body1 speciesResponse.zero).1))
           = GetFails err).

(** The name the handler works with: ["cafard"] when the parameter is
    absent or empty. *)
Definition resolved_name (r : Request) : string :=
  let name := Values_Get (Query r) "name" in
  if bool_decide (name = "") then "cafard" else name.

End Program.

(** ** The flattening order of the specification *)

(** "Emit the base species name first; then, in the order received, for
    each first-stage evolution emit its name followed immediately by the
    names of all its second-stage evolutions." *)
Definition preorder (chain : chainResponse.t) : list string :=
  let root := chainResponse.Chain chain in
  named.Name (chainNode.Species root)
  :: concat
       (map (fun e =>
               named.Name (firstStage.Species e)
               :: map (fun f => named.Name (secondStage.Species f))
                      (elems (firstStage.EvolvesTo e)))
            (elems (chainNode.EvolvesTo root))).

(** ** A sample environment *)

Module sample.

(** Key folding on ASCII keys: lower-case letters become upper-case. *)
Fixpoint foldName (s : string) : string :=
  match s with
  | EmptyString => EmptyString
  | String c rest =>
      let n := N_of_ascii c in
      String (if (97 <=? n)%N && (n <=? 122)%N then ascii_of_N (n - 32) else c)
             (foldName rest)
  end.

Definition species_url : string := "https://pokeapi.co/api/v2/pokemon-species/97/".
Definition chain_url : string := "https://pokeapi.co/api/v2/evolution-chain/41/".

Definition stat (name : string) (base : Z) : json :=
  JObject [("base_stat", JNumber (NInt base)); ("effort", JNumber (NInt 0));
           ("stat", JObject [("name", JString name)])].

(** The detail response of Pokemon 97. *)
Definition detail : json :=
  JObject
    [("id", JNumber (NInt 97));
     ("name", JString "hypno");
     ("species", JObject [("name", JString "hypno"); ("url", JString species_url)]);
     ("sprites",
      JObject [("front_default", JNull);
               ("other",
                JObject [("official-artwork",
                          JObject [("front_default", JString "97.png")])])]);
     ("stats", JArray [stat "hp" 85; stat "attack" 73; stat "speed" 67]);
     ("types",
      JArray [JObject [("slot", JNumber (NInt 1));
                       ("type", JObject [("name", JString "psychic")])]])].

Definition species : json :=
  JObject [("evolution_chain", JObject [("url", JString chain_url)]);
           ("name", JString "hypno")].

Definition link (name : string) (evolves_to : list json) : json :=
  JObject [("evolves_to", JArray evolves_to);
           ("species", JObject [("name", JString name)])].

Definition chain : json :=
  JObject [("chain", link "drowzee" [link "hypno" []]); ("id", JNumber (NInt 41))].

(** A branching chain of three stages. *)
Definition branching : json :=
  JObject [("chain",
            link "wurmple" [link "silcoon" [link "beautifly" []];
                            link "cascoon" [link "dustox" []]])].

Definition unreachable : error := GetError "dial tcp: connection refused".
Definition not_json : error :=
  SyntaxError "invalid character '<' looking for beginning of value".

(** The same Pokemon with the [hp] stat listed twice. *)
Definition detail_repeated : json :=
  JObject
    [("name", JString "hypno");
     ("stats", JArray [stat "hp" 85; stat "attack" 73; stat "hp" 90])].

(** The answers of a network, by URL. *)
Definition routes : list (string * get_result) :=
  [ ("https://pokeapi.co/api/v2/pokemon/97", GetReturns (Doc detail));
    (species_url, GetReturns (Doc species));
    (chain_url, GetReturns (Doc chain));
    ("branching-species",
     GetReturns (Doc (JObject [("evolution_chain", JObject [("url", JString "branching")])])));
    ("branching", GetReturns (Doc branching));
    ("bare-species",
     GetReturns (Doc (JObject [("evolution_chain", JObject [("url", JString "bare")])])));
    ("bare", GetReturns (Doc (JObject []))) ].

Fixpoint route (table : list (string * get_result)) (url : string) : get_result :=
  match table with
  | [] => GetFails unreachable
  | (u, answer) :: table' => if bool_decide (u = url) then answer else route table' url
  end.

(** A network that answers the same at every request. *)
Definition http_Get (n : nat) (url : string) : get_result := route routes url.

(** The same network with one answer replaced. *)
Definition http_Get_but (url' : string) (answer : get_result)
    (n : nat) (url : string) : get_result :=
  route ((url', answer) :: routes) url.

(** The same network when only the first [up] requests get through. *)
Definition http_Get_first (up : nat) (n : nat) (url : string) : get_result :=
  if (n <? up)%nat then http_Get n url else GetFails unreachable.

Definition Error (e : error) : string :=
  match e with
  | GetError msg => msg
  | SyntaxError msg => msg
  | UnmarshalTypeError _ => "json: cannot unmarshal"
  | TemplateError msg => msg
  end.

Definition Getenv (name : string) : string := "".

(** A template that prints the titled Pokemon name and its evolutions. *)
Definition tmpl : template :=
  fun title params =>
    ([ "<h1>"; title (indexTemplateParams.PokemonName params); "</h1>" ]
       ++ indexTemplateParams.Evolutions params, None).

Definition ParseFS : template + error := inl tmpl.

(** A chain nested one stage deeper than the structs of [fetchEvolutions]. *)
Definition deep : json :=
  JObject [("chain", link "a" [link "b" [link "c" [link "d" []]]])].

(** A detail response with fields missing at every depth. *)
Definition detail_partial : json :=
  JObject
    [("name", JString "hypno");
     ("sprites", JObject [("other", JObject [])]);
     ("stats", JArray [JObject [("stat", JObject [])]]);
     ("types", JArray [JObject []])].

(** The two bytes of U+00E9, a lower-case e with an acute accent. *)
Definition e_acute : string :=
  String (ascii_of_nat 195) (String (ascii_of_nat 169) EmptyString).

(** The two bytes of U+00C9, its upper-case letter. *)
Definition E_acute : string :=
  String (ascii_of_nat 195) (String (ascii_of_nat 137) EmptyString).

End sample.

(** ** The start of the server *)

(** The address [main] listens on: [fmt.Sprintf("%s:%s", addr, port)] with
    [addr := env("ADDR", "0.0.0.0")] and [port := env("PORT", "8080")]. *)
Definition listen (Getenv : string -> string) : string :=
  env Getenv "ADDR" "0.0.0.0" +:+ ":" +:+ env Getenv "PORT" "8080".

(** Lines 79-88 of [index]: the parameters handed to the template. *)
Definition page (Getenv : string -> string) (name : string) (pid : Z)
    (poke : pokemonData.t) : indexTemplateParams.t :=
  {| indexTemplateParams.Name := name;
     indexTemplateParams.Version := env Getenv "VERSION" "cafard-edition";
     indexTemplateParams.PokemonID := pid;
     indexTemplateParams.PokemonName := pokemonData.Name poke;
     indexTemplateParams.Types := pokemonData.Types poke;
     indexTemplateParams.Stats := pokemonData.Stats poke;
     indexTemplateParams.Evolutions := pokemonData.Evolutions poke;
     indexTemplateParams.PokemonSprite := pokemonData.Sprite poke |}.

(** ** The documents of the PokeAPI

    The responses the struct tags of [main.go] are written for, built from
    the data they carry, with the members that [main.go] reads. *)

Module api.

(** [{"name": n}] *)
Definition name_object (n : string) : json := JObject [("name", JString n)].

(** An item of [types]: [{"type": {"name": n}}]. *)
Definition type_item (n : string) : json := JObject [("type", name_object n)].

(** An item of [stats]: [{"base_stat": b, "stat": {"name": n}}]. *)
Definition stat_item (s : string * Z) : json :=
  JObject [("base_stat", JNumber (NInt s.2)); ("stat", name_object s.1)].

(** The detail document of a Pokemon. *)
Definition detail (name : string) (types : list string) (stats : list (string * Z))
    (sprite speciesURL : string) : json :=
  JObject
    [("name", JString name);
     ("types", JArray (map type_item types));
     ("stats", JArray (map stat_item stats));
     ("sprites",
      JObject [("other",
                JObject [("official-artwork",
                          JObject [("front_default", JString sprite)])])]);
     ("species", JObject [("url", JString speciesURL)])].

(** The species document: where the evolution chain is. *)
Definition species (chainURL : string) : json :=
  JObject [("evolution_chain", JObject [("url", JString chainURL)])].

(** A second-stage evolution. *)
Definition stage2 (n : string) : json := JObject [("species", name_object n)].

(** A first-stage evolution with the names of its own evolutions. *)
Definition stage1 (e : string * list string) : json :=
  JObject [("species", name_object e.1); ("evolves_to", JArray (map stage2 e.2))].

(** The evolution-chain document of a base species. *)
Definition chain (base : string) (evolutions : list (string * list string)) : json :=
  JObject [("chain",
            JObject [("species", name_object base);
                     ("evolves_to", JArray (map stage1 evolutions))])].

End api.

(** ** Faulty templates *)

Module faults.

Definition broken : error := TemplateError "template: index.tmpl.html: broken".

(** A template that fails before it writes. *)
Definition fails_early : template := fun title params => ([], Some broken).

(** A template that fails after it has written the head of the page. *)
Definition fails_late : template :=
  fun title params =>
    ([ "<h1>"; title (indexTemplateParams.PokemonName params) ], Some broken).

End faults.

(** ** A response read by its paths, missing fields at their zero values *)

Section Paths.

Variable foldName : string -> string.
Variable http_Get : nat -> string -> get_result.

(** No object of the document lists two members under the same key, keys
    that fold to the same name counting as the same. *)
Fixpoint distinct_keys (j : json) : bool :=
  match j with
  | JArray items =>
      (fix all (l : list json) : bool :=
         match l with
         | [] => true
         | x :: l' => distinct_keys x && all l'
         end) items
  | JObject members =>
      bool_decide (NoDup (map (fun m => foldName m.1) members))
      && (fix all (l : list (string * json)) : bool :=
            match l with
            | [] => true
            | (_, v) :: l' => distinct_keys v && all l'
            end) members
  | _ => true
  end.

(** One step of a path: the value of the member of object [j] that selects
    the field tagged [key] of a struct with fields [fs]. There is none
    when [j] is not an object or has no such member: the field is missing. *)
Definition member_for {T : Type} (fs : list (field T)) (key : string) (j : json)
    : option json :=
  match j with
  | JObject members =>
      snd <$> find (fun m => bool_decide (tag <$> field_for foldName fs m.1 = Some key))
                   members
  | _ => None
  end.

(** The string at the end of a path: the empty string when it is missing
    (or is not a string). *)
Definition text (o : option json) : string :=
  match o with
  | Some (JString s) => s
  | _ => ""
  end.

(** The [int] at the end of a path: zero when it is missing (or is not an
    integer that fits). *)
Definition integer (o : option json) : Z :=
  match o with
  | Some (JNumber (NInt z)) => if (- 2 ^ 63 <=? z) && (z <? 2 ^ 63) then z else 0
  | _ => 0
  end.

(** The list at the end of a path: the empty list when it is missing (or
    is not an array). *)
Definition items (o : option json) : list json :=
  match o with
  | Some (JArray l) => l
  | _ => []
  end.

(** [key.name] below an object decoded into a struct with fields [fs]. *)
Definition name_at {T : Type} (fs : list (field T)) (key : string) (j : json) : string :=
  text (member_for fs key j ≫= member_for named_fields "name").

(** [species.url] of a detail response. *)
Definition species_url_of (j : json) : string :=
  text (member_for (pokeAPIResponse_fields foldName) "species" j
          ≫= member_for linked_fields "url").

(** The record a detail response describes: [name], [types[].type.name],
    [stats[].stat.name] with [stats[].base_stat],
    [sprites.other.official-artwork.front_default], each at its zero
    value where the response does not have it. *)
Definition described (j : json) (evolutions : list string) : pokemonData.t :=
  {| pokemonData.Name := text (member_for (pokeAPIResponse_fields foldName) "name" j);
     pokemonData.Types :=
       map (name_at (typeSlot_fields foldName) "type")
           (items (member_for (pokeAPIResponse_fields foldName) "types" j));
     pokemonData.Stats :=
       fold_left
         (fun stats s =>
            <[ name_at (statSlot_fields foldName) "stat" s
               := integer (member_for (statSlot_fields foldName) "base_stat" s) ]> stats)
         (items (member_for (pokeAPIResponse_fields foldName) "stats" j)) ∅;
     pokemonData.Sprite :=
       text (((member_for (pokeAPIResponse_fields foldName) "sprites" j
                 ≫= member_for (sprites_fields foldName) "other")
                ≫= member_for (other_fields foldName) "official-artwork")
               ≫= member_for official_fields "front_default");
     pokemonData.Evolutions := evolutions |}.

(** [evolution_chain.url] of a species response. *)
Definition chain_url_of (j : json) : string :=
  text (member_for (speciesResponse_fields foldName) "evolution_chain" j
          ≫= member_for linked_fields "url").

(** The names an evolution-chain response describes: [chain.species.name],
    then for each item of [chain.evolves_to] its [species.name] and the
    [species.name] of the items of its [evolves_to], each at its zero
    value where the response does not have it. *)
Definition evolutions_of (j : json) : list string :=
  let root := member_for (chainResponse_fields foldName) "chain" j in
  text ((root ≫= member_for (chainNode_fields foldName) "species")
          ≫= member_for named_fields "name")
  :: concat
       (map (fun e =>
               name_at (firstStage_fields foldName) "species" e
               :: map (name_at (secondStage_fields foldName) "species")
                      (items (member_for (firstStage_fields foldName) "evolves_to" e)))
            (items (root ≫= member_for (chainNode_fields foldName) "evolves_to"))).

(** ** Run-time checks of the assembly *)

(** [m[k] = v] on a Go map: a write to the nil map panics. *)
Definition map_store (m : option (gmap string Z)) (k : string) (v : Z)
    : outcome (option (gmap string Z)) :=
  match m with
  | None => Panics "assignment to entry in nil map"
  | Some entries => Returns (Some (<[ k := v ]> entries))
  end.

(** Lines 152-164 of [fetchPokemon] with the map of [result] as Go holds
    it: nil in [var result pokemonData], made on line 154, written by the
    loop of lines 155-157. *)
Definition assemble_checked (poke : pokeAPIResponse.t) : outcome pokemonData.t :=
  let made : option (gmap string Z) := Some ∅ in
  let written :=
    fold_left
      (fun acc s =>
         match acc with
         | Panics why => Panics why
         | Returns m =>
             map_store m (named.Name (statSlot.Stat s)) (statSlot.BaseStat s)
         end)
      (elems (pokeAPIResponse.Stats poke)) (Returns made) in
  match written with
  | Panics why => Panics why
  | Returns m =>
      Returns
        {| pokemonData.Name := pokeAPIResponse.Name poke;
           pokemonData.Sprite :=
             official.Front
               (other.Official (sprites.Other (pokeAPIResponse.Sprites poke)));
           pokemonData.Stats := default ∅ m;
           pokemonData.Types :=
             fold_left
               (fun types t => types ++ [named.Name (typeSlot.Type_ t)])
               (elems (pokeAPIResponse.Types poke)) [];
           pokemonData.Evolutions :=
             fetchEvolutions foldName http_Get
               (linked.URL (pokeAPIResponse.Species poke)) |}
  end.

(** [fetchPokemon] with these checks: it returns its pair, or panics. *)
Definition fetchPokemon_checked (id : Z) : outcome (pokemonData.t * option error) :=
  let result := pokemonData.zero in
  match http_Get 0 (pokemon_url id) with
  | GetFails err => Returns (result, Some err)
  | GetReturns b =>
      match Decode foldName (pokeAPIResponse_fields foldName) b pokeAPIResponse.zero with
      | (_, Some err) => Returns (result, Some err)
      | (poke, None) =>
          match assemble_checked poke with
          | Panics why => Panics why
          | Returns data => Returns (data, None)
          end
      end
  end.

End Paths.

(** ** Responses with members left out *)

(** [prune j j']: [j'] is [j] with members left out of some of its
    objects, at any depth; nothing else changes. *)
Inductive prune : json -> json -> Prop :=
  | prune_same (j : json) : prune j j
  | prune_array (l l' : list json) :
      Forall2 prune l l' -> prune (JArray l) (JArray l')
  | prune_object (ms ms' : list (string * json)) :
      prune_members ms ms' -> prune (JObject ms) (JObject ms')
with prune_members : list (string * json) -> list (string * json) -> Prop :=
  | prune_done : prune_members [] []
  | prune_drop (m : string * json) (ms ms' : list (string * json)) :
      prune_members ms ms' -> prune_members (m :: ms) ms'
  | prune_keep (k : string) (j j' : json) (ms ms' : list (string * json)) :
      prune j j' -> prune_members ms ms' ->
      prune_members ((k, j) :: ms) ((k, j') :: ms').

(** ** A response with a repeated key *)

Module repeated.

(** The [stats] member comes twice; the item of the second one has no
    [base_stat]. *)
Definition detail : json :=
  JObject
    [("name", JString "n");
     ("stats", JArray [JObject [("base_stat", JNumber (NInt 1));
                                ("stat", JObject [("name", JString "a")])]]);
     ("stats", JArray [JObject [("stat", JObject [("name", JString "c")])]])].

End repeated.

(** * Properties of the evolution flattener *)

Lemma fold_left_snoc {A B : Type} (g : A -> B) (l : list A) (init : list B) :
  fold_left (fun acc x => acc ++ [g x]) l init = init ++ map g l.
Proof.
  revert init. induction l as [| x l IH]; intros init; simpl.
  - rewrite app_nil_r. reflexivity.
  - rewrite IH, <- app_assoc. reflexivity.
Qed.

(** The outer loop, from any list of names already emitted. *)
Lemma flatten_loop (es : list firstStage.t) (init : list string) :
  fold_left
    (fun evols e =>
       fold_left
         (fun evols f => evols ++ [named.Name (secondStage.Species f)])
         (elems (firstStage.EvolvesTo e))
         (evols ++ [named.Name (firstStage.Species e)]))
    es init
  = init ++ concat
       (map (fun e =>
               named.Name (firstStage.Species e)
               :: map (fun f => named.Name (secondStage.Species f))
                      (elems (firstStage.EvolvesTo e)))
            es).
Proof.
  revert init. induction es as [| e es IH]; intros init; simpl.
  - rewrite app_nil_r. reflexivity.
  - rewrite IH, fold_left_snoc. rewrite <- !app_assoc. reflexivity.
Qed.

(** The two loops emit the specification's order. *)
Lemma flatten_preorder (chain : chainResponse.t) : flatten chain = preorder chain.
Proof. unfold flatten, preorder. rewrite flatten_loop. reflexivity. Qed.

(** * Properties of the name hasher *)

(** FIPS 180 test vectors run through the model of [crypto/sha1]. *)
Example sha1_empty :
  big_endian (sha1.Sum (bytes "")) = 0xda39a3ee5e6b4b0d3255bfef95601890afd80709.
Proof. vm_compute. reflexivity. Qed.

Example sha1_abc :
  big_endian (sha1.Sum (bytes "abc")) = 0xa9993e364706816aba3e25717850c26c9cd0d89d.
Proof. vm_compute. reflexivity. Qed.

Example sha1_two_blocks :
  big_endian
    (sha1.Sum (bytes "abcdbcdecdefdefgefghfghighijhijkijkljklmklmnlmnomnopnopq"))
  = 0x84983e441c3bd26ebaae4aa1f95129e5e54670f1.
Proof. vm_compute. reflexivity. Qed.

Section Bits.

(** Two numbers with no common bit add up to their bitwise or. *)
Lemma lor_shiftl_add (a b k : Z) :
  0 <= k -> 0 <= a < 2 ^ k -> Z.lor a (Z.shiftl b k) = a + b * 2 ^ k.
Proof.
  intros Hk Ha.
  assert (Hdisj : Z.land a (Z.shiftl b k) = 0).
  { apply Z.bits_inj'. intros n Hn.
    rewrite Z.land_spec, Z.bits_0.
    destruct (Z.lt_ge_cases n k) as [Hlt | Hge].
    - rewrite (Z.shiftl_spec_low b k n Hlt). apply andb_false_r.
    - destruct (Z.eq_dec a 0) as [-> | Hne].
      + rewrite Z.bits_0. reflexivity.
      + rewrite (Z.bits_above_log2 a n); [reflexivity | lia |].
        apply Z.lt_le_trans with k; [| exact Hge].
        apply Z.log2_lt_pow2; lia. }
  rewrite <- Z.lxor_lor by exact Hdisj.
  rewrite <- Z.add_nocarry_lxor by exact Hdisj.
  rewrite Z.shiftl_mul_pow2 by exact Hk. reflexivity.
Qed.

(** A byte shifted left by at most 56 bits fits a [uint64]. *)
Lemma u64_shiftl_byte (b k : Z) :
  is_byte b -> 0 <= k <= 56 -> binary.u64 (Z.shiftl b k) = b * 2 ^ k.
Proof.
  intros Hb Hk. unfold binary.u64, is_byte in *.
  rewrite Z.shiftl_mul_pow2 by lia.
  apply Z.mod_small.
  assert (H56 : 2 ^ k <= 2 ^ 56) by (apply Z.pow_le_mono_r; lia).
  assert (0 < 2 ^ k) by (apply Z.pow_pos_nonneg; lia).
  change (2 ^ 64) with (256 * 2 ^ 56). nia.
Qed.

Lemma shiftr_mod_byte (v k : Z) : is_byte (Z.shiftr v k mod 256).
Proof. unfold is_byte. apply Z.mod_pos_bound. lia. Qed.

End Bits.

(** [BigEndian.Uint64] on eight bytes (and anything after them) is the
    big-endian integer of these eight bytes. *)
Lemma Uint64_big_endian (b0 b1 b2 b3 b4 b5 b6 b7 : Z) (rest : list Z) :
  is_byte b0 -> is_byte b1 -> is_byte b2 -> is_byte b3 ->
  is_byte b4 -> is_byte b5 -> is_byte b6 -> is_byte b7 ->
  binary.BigEndian_Uint64 (b0 :: b1 :: b2 :: b3 :: b4 :: b5 :: b6 :: b7 :: rest)
  = Returns (big_endian [b0; b1; b2; b3; b4; b5; b6; b7]).
Proof.
  intros H0 H1 H2 H3 H4 H5 H6 H7.
  unfold binary.BigEndian_Uint64. f_equal.
  rewrite !u64_shiftl_byte by (assumption || lia).
  unfold is_byte in *.
  rewrite <- !Z.shiftl_mul_pow2 by lia.
  rewrite (lor_shiftl_add b7 b6 8) by lia.
  rewrite (lor_shiftl_add _ b5 16) by lia.
  rewrite (lor_shiftl_add _ b4 24) by lia.
  rewrite (lor_shiftl_add _ b3 32) by lia.
  rewrite (lor_shiftl_add _ b2 40) by lia.
  rewrite (lor_shiftl_add _ b1 48) by lia.
  rewrite (lor_shiftl_add _ b0 56) by lia.
  unfold big_endian. simpl fold_left. lia.
Qed.

(** The digest is twenty bytes; its first eight are the bytes of [h0] and
    [h1], most significant first. *)
Lemma Sum_first8 (data : list Z) :
  exists b0 b1 b2 b3 b4 b5 b6 b7 rest,
    sha1.Sum data = b0 :: b1 :: b2 :: b3 :: b4 :: b5 :: b6 :: b7 :: rest
    /\ is_byte b0 /\ is_byte b1 /\ is_byte b2 /\ is_byte b3
    /\ is_byte b4 /\ is_byte b5 /\ is_byte b6 /\ is_byte b7.
Proof.
  unfold sha1.Sum, sha1.PutUint32. cbv zeta. simpl map. simpl app.
  do 9 eexists. split; [reflexivity |].
  repeat split; apply shiftr_mod_byte.
Qed.

Lemma Sum_length (data : list Z) : List.length (sha1.Sum data) = sha1.Size.
Proof. reflexivity. Qed.

Lemma Sum_bytes (data : list Z) : Forall is_byte (sha1.Sum data).
Proof.
  unfold sha1.Sum, sha1.PutUint32. cbv zeta. simpl map. simpl app.
  repeat constructor; apply shiftr_mod_byte.
Qed.

(** On the digest, the code's integer is the specification's. *)
Lemma Uint64_Sum (data : list Z) :
  binary.BigEndian_Uint64 (sha1.Sum data)
  = Returns (big_endian (firstn 8 (sha1.Sum data))).
Proof.
  destruct (Sum_first8 data)
    as (b0 & b1 & b2 & b3 & b4 & b5 & b6 & b7 & rest & -> & H).
  destruct H as (? & ? & ? & ? & ? & ? & ? & ?).
  rewrite Uint64_big_endian by assumption. reflexivity.
Qed.

Lemma pokemonID_spec_id (name : string) (m : Z) :
  1 <= m < 2 ^ 64 -> pokemonID name m = Returns (spec_id name m).
Proof.
  intros Hm. unfold pokemonID, spec_id.
  rewrite Uint64_Sum.
  destruct (Z.eqb_spec m 0) as [-> | _]; [lia |].
  f_equal. unfold binary.u64. apply Z.mod_small.
  pose proof (Z.mod_pos_bound (big_endian (firstn 8 (sha1.Sum (bytes name)))) m).
  lia.
Qed.

(** C1: with modulus 151, [pokemonID] is the big-endian unsigned 64-bit
    integer of the first eight bytes of the SHA-1 digest of the bytes of
    the name, reduced modulo 151, plus one. *)
Theorem pokemonID_151_is_spec (name : string) :
  pokemonID name 151 = Returns (spec_id name 151).
Proof. apply pokemonID_spec_id. lia. Qed.

(** C2: for every string the identifier for modulus 151 exists, is unique
    (the same on every call: nothing but the name enters the computation)
    and lies in 1..151; the empty string is accepted, no panic. *)
Theorem pokemonID_151_range (s : string) :
  (exists! v, pokemonID s 151 = Returns v /\ 1 <= v <= 151)
  /\ pokemonID "" 151 = Returns 122.
Proof.
  split; [| vm_compute; reflexivity].
  exists (spec_id s 151). split.
  - split; [apply pokemonID_spec_id; lia |].
    unfold spec_id.
    pose proof (Z.mod_pos_bound (big_endian (firstn 8 (sha1.Sum (bytes s)))) 151).
    lia.
  - intros v [Hv _]. rewrite pokemonID_spec_id in Hv by lia. congruence.
Qed.

(** C10: for every name and every modulus [m >= 1] of type [uint64],
    [pokemonID] returns a value in 1..m; for modulus 0 the modulo panics. *)
Theorem pokemonID_total (name : string) (m : Z) :
  1 <= m < 2 ^ 64 ->
  (exists v, pokemonID name m = Returns v /\ 1 <= v <= m)
  /\ pokemonID name 0 = Panics "integer divide by zero".
Proof.
  intros Hm. split.
  - exists (spec_id name m). split; [apply pokemonID_spec_id; exact Hm |].
    unfold spec_id.
    pose proof (Z.mod_pos_bound (big_endian (firstn 8 (sha1.Sum (bytes name)))) m).
    lia.
  - unfold pokemonID. rewrite Uint64_Sum. reflexivity.
Qed.

Lemma pokemonID_total_witness :
  (exists v, pokemonID "pikachu" 151 = Returns v /\ 1 <= v <= 151)
  /\ pokemonID "pikachu" 0 = Panics "integer divide by zero".
Proof. apply (pokemonID_total "pikachu" 151). lia. Defined.

(** * Properties of the fetcher and of the handler *)

Section Properties.

Variable foldName : string -> string.
Variable http_Get : nat -> string -> get_result.
Variable Error : error -> string.
Variable Getenv : string -> string.
Variable ParseFS : template + error.

(** Into a slice with nothing behind it, the elements of an array are
    decoded from zero values, in the order of the array. *)
Lemma array_elems_fresh {E : Type} (zero : E) (d : decoder E) (items : list json) :
  (array_elems zero d items []).1.1 = map (fun j => (d j zero).1) items
  /\ (array_elems zero d items []).1.2 = [].
Proof.
  induction items as [| j items [IH1 IH2]]; simpl; [split; reflexivity |].
  destruct (d j zero) as [x e].
  destruct (array_elems zero d items []) as [[xs rest] e'].
  simpl in *. subst. split; reflexivity.
Qed.

(** When both requests of the evolution path are answered, the result is
    the flattening of whatever the chain decoder left. *)
Lemma fetchEvolutions_answered (speciesURL : string) (body1 body2 : body) :
  http_Get 1 speciesURL = GetReturns body1 ->
  http_Get 2
    (linked.URL (speciesResponse.EvolutionChain
       (Decode foldName (speciesResponse_fields foldName) body1 speciesResponse.zero).1))
  = GetReturns body2 ->
  fetchEvolutions foldName http_Get speciesURL
  = flatten (Decode foldName (chainResponse_fields foldName) body2 chainResponse.zero).1.
Proof. intros H1 H2. unfold fetchEvolutions. rewrite H1, H2. reflexivity. Qed.

(** C3: for every successfully decoded evolution chain, [fetchEvolutions]
    returns the base species name, then each first-stage name followed at
    once by the names of its second-stage evolutions, in input order; the
    chain base -> {A, B}, A -> {A1} gives [base; A; A1; B] and a chain
    with no evolutions gives [base]. *)
Theorem fetchEvolutions_preorder
    (speciesURL : string) (body1 body2 : body) (chain : chainResponse.t) :
  http_Get 1 speciesURL = GetReturns body1 ->
  http_Get 2
    (linked.URL (speciesResponse.EvolutionChain
       (Decode foldName (speciesResponse_fields foldName) body1 speciesResponse.zero).1))
  = GetReturns body2 ->
  Decode foldName (chainResponse_fields foldName) body2 chainResponse.zero = (chain, None) ->
  fetchEvolutions foldName http_Get speciesURL = preorder chain
  /\ (forall (base A A1 B : string) (sp1 : list secondStage.t)
             (sp2 : list secondStage.t) (sp3 : list firstStage.t),
        chainResponse.Chain chain
        = chainNode.Make (named.Make base)
            (Slice [ firstStage.Make (named.Make A)
                       (Slice [secondStage.Make (named.Make A1)] sp1);
                     firstStage.Make (named.Make B) (Slice [] sp2) ] sp3) ->
        fetchEvolutions foldName http_Get speciesURL = [base; A; A1; B])
  /\ (forall (base : string) (sp : list firstStage.t),
        chainResponse.Chain chain = chainNode.Make (named.Make base) (Slice [] sp) ->
        fetchEvolutions foldName http_Get speciesURL = [base]).
Proof.
  intros H1 H2 Hdec.
  assert (E : fetchEvolutions foldName http_Get speciesURL = preorder chain).
  { rewrite (fetchEvolutions_answered _ _ _ H1 H2), Hdec. apply flatten_preorder. }
  split; [exact E |].
  split.
  - intros base A A1 B sp1 sp2 sp3 Hc. rewrite E. unfold preorder. rewrite Hc.
    reflexivity.
  - intros base sp Hc. rewrite E. unfold preorder. rewrite Hc. reflexivity.
Qed.

(** Writing the stats of a list into a map leaves a key alone when no
    element of the list carries it. *)
Lemma stats_loop_other (l : list statSlot.t) (m : gmap string Z) (k : string) :
  Forall (fun s => named.Name (statSlot.Stat s) <> k) l ->
  fold_left
    (fun stats s => <[ named.Name (statSlot.Stat s) := statSlot.BaseStat s ]> stats) l m
  !! k = m !! k.
Proof.
  revert m. induction l as [| s l IH]; intros m Hl; simpl; [reflexivity |].
  inversion Hl as [| ? ? Hs Hl']; subst.
  rewrite IH by assumption. apply lookup_insert_ne. exact Hs.
Qed.

(** The last element carrying a key decides its value. *)
Lemma stats_loop_last (before after : list statSlot.t) (s : statSlot.t)
    (m : gmap string Z) :
  Forall (fun s' => named.Name (statSlot.Stat s') <> named.Name (statSlot.Stat s)) after ->
  fold_left
    (fun stats s => <[ named.Name (statSlot.Stat s) := statSlot.BaseStat s ]> stats)
    (before ++ s :: after) m
  !! named.Name (statSlot.Stat s) = Some (statSlot.BaseStat s).
Proof.
  intros Hafter. rewrite fold_left_app. simpl.
  rewrite stats_loop_other by assumption. apply lookup_insert_eq.
Qed.

(** What [fetchPokemon] returns on an answered, decoded detail request. *)
Lemma fetchPokemon_decoded (id : Z) (b : body) (poke : pokeAPIResponse.t) :
  http_Get 0 (pokemon_url id) = GetReturns b ->
  Decode foldName (pokeAPIResponse_fields foldName) b pokeAPIResponse.zero = (poke, None) ->
  fetchPokemon foldName http_Get id = (assemble foldName http_Get poke, None).
Proof. intros Hget Hdec. unfold fetchPokemon. rewrite Hget, Hdec. reflexivity. Qed.

(** C9: the stats of an assembled record have unique keys, and a stat name
    listed more than once keeps the base stat of its last occurrence. *)
Theorem stats_unique_last_wins
    (id : Z) (b : body) (poke : pokeAPIResponse.t)
    (before after : list statSlot.t) (s : statSlot.t) :
  http_Get 0 (pokemon_url id) = GetReturns b ->
  Decode foldName (pokeAPIResponse_fields foldName) b pokeAPIResponse.zero = (poke, None) ->
  elems (pokeAPIResponse.Stats poke) = before ++ s :: after ->
  Forall (fun s' => named.Name (statSlot.Stat s') <> named.Name (statSlot.Stat s)) after ->
  NoDup (map_to_list (pokemonData.Stats (fetchPokemon foldName http_Get id).1)).*1
  /\ pokemonData.Stats (fetchPokemon foldName http_Get id).1
       !! named.Name (statSlot.Stat s) = Some (statSlot.BaseStat s).
Proof.
  intros Hget Hdec Hstats Hafter.
  split; [apply NoDup_fst_map_to_list |].
  rewrite (fetchPokemon_decoded _ _ _ Hget Hdec). simpl.
  rewrite Hstats. apply stats_loop_last. exact Hafter.
Qed.

(** A failed species request gives no evolutions. *)
Lemma fetchEvolutions_species_fails (speciesURL : string) (err : error) :
  http_Get 1 speciesURL = GetFails err ->
  fetchEvolutions foldName http_Get speciesURL = [].
Proof. intros H. unfold fetchEvolutions. rewrite H. reflexivity. Qed.

(** A failed evolution-chain request gives no evolutions. *)
Lemma fetchEvolutions_chain_fails (speciesURL : string) (body1 : body) (err : error) :
  http_Get 1 speciesURL = GetReturns body1 ->
  http_Get 2
    (linked.URL (speciesResponse.EvolutionChain
       (Decode foldName (speciesResponse_fields foldName) body1 speciesResponse.zero).1))
  = GetFails err ->
  fetchEvolutions foldName http_Get speciesURL = [].
Proof. intros H1 H2. unfold fetchEvolutions. rewrite H1, H2. reflexivity. Qed.

Lemma fetchEvolutions_fetch_fails (speciesURL : string) :
  evolution_fetch_fails foldName http_Get speciesURL ->
  fetchEvolutions foldName http_Get speciesURL = [].
Proof.
  intros [[err H] | (body1 & err & H1 & H2)].
  - exact (fetchEvolutions_species_fails _ _ H).
  - exact (fetchEvolutions_chain_fails _ _ _ H1 H2).
Qed.

(** [fetchPokemon] returns an error exactly when step (1) fails. *)
Lemma fetchPokemon_error_iff (id : Z) :
  is_Some (fetchPokemon foldName http_Get id).2 <-> detail_fails foldName http_Get id.
Proof.
  unfold fetchPokemon, detail_fails.
  destruct (http_Get 0 (pokemon_url id)) as [err | b] eqn:Hget.
  - split; [intros _; left; eauto | intros _; simpl; eauto].
  - destruct (Decode foldName (pokeAPIResponse_fields foldName) b pokeAPIResponse.zero)
      as [poke [err |]] eqn:Hdec; simpl.
    + split; [| eauto]. intros _. right. exists b, err. rewrite Hdec. auto.
    + split.
      * intros [x Hx]. discriminate Hx.
      * intros [[err H] | (b' & err & H & Herr)]; [discriminate H |].
        injection H as <-. rewrite Hdec in Herr. discriminate Herr.
Qed.

(** A run of writes on a writer that has sent no other status than 200
    sends 200. *)
Lemma writes_status (writes : list string) (w : ResponseWriter) :
  status_sent w = 200 ->
  status_sent (fold_left (fun w data => Write data w) writes w) = 200.
Proof.
  revert w. induction writes as [| data writes IH]; intros w Hw; simpl; [exact Hw |].
  apply IH. revert Hw. unfold status_sent, Write, WriteHeader.
  destruct w as [[code |] out]; cbn; intros H; [exact H | reflexivity].
Qed.

(** What [index] does once the template is parsed and the detail request
    has been answered and decoded. *)
Lemma index_fetched (w : ResponseWriter) (r : Request) (tmpl : template)
    (b : body) (poke : pokeAPIResponse.t) :
  ParseFS = inl tmpl ->
  http_Get 0 (pokemon_url (spec_id (resolved_name r) 151)) = GetReturns b ->
  Decode foldName (pokeAPIResponse_fields foldName) b pokeAPIResponse.zero = (poke, None) ->
  index foldName http_Get Error Getenv ParseFS w r
  = let data := assemble foldName http_Get poke in
    let params :=
      {| indexTemplateParams.Name := resolved_name r;
         indexTemplateParams.Version := env Getenv "VERSION" "cafard-edition";
         indexTemplateParams.PokemonID := spec_id (resolved_name r) 151;
         indexTemplateParams.PokemonName := pokemonData.Name data;
         indexTemplateParams.Types := pokemonData.Types data;
         indexTemplateParams.Stats := pokemonData.Stats data;
         indexTemplateParams.Evolutions := pokemonData.Evolutions data;
         indexTemplateParams.PokemonSprite := pokemonData.Sprite data |} in
    match Execute tmpl w params with
    | (w', Some err) => Returns (http_Error w' (Error err) 500, None)
    | (w', None) => Returns (w', Some (resolved_name r, pokemonData.Name data))
    end.
Proof.
  intros Hparse Hget Hdec. unfold index. rewrite Hparse.
  fold (resolved_name r).
  rewrite pokemonID_spec_id by lia.
  rewrite (fetchPokemon_decoded _ _ _ Hget Hdec). reflexivity.
Qed.

(** C5: [fetchPokemon] returns an error exactly when step (1) fails; when
    step (1) succeeds and the species or the evolution-chain fetch fails,
    it returns the record of step (1) with no evolutions and no error, and
    the handler renders that record and responds 200. *)
Theorem fetchPokemon_error_policy (id : Z) (r : Request) :
  (is_Some (fetchPokemon foldName http_Get id).2 <-> detail_fails foldName http_Get id)
  /\ (forall (b : body) (poke : pokeAPIResponse.t),
        http_Get 0 (pokemon_url id) = GetReturns b ->
        Decode foldName (pokeAPIResponse_fields foldName) b pokeAPIResponse.zero
        = (poke, None) ->
        evolution_fetch_fails foldName http_Get (linked.URL (pokeAPIResponse.Species poke)) ->
        (fetchPokemon foldName http_Get id).2 = None
        /\ pokemonData.Evolutions (fetchPokemon foldName http_Get id).1 = []
        /\ (fetchPokemon foldName http_Get id).1 = assemble foldName http_Get poke)
  /\ (forall (tmpl : template) (b : body) (poke : pokeAPIResponse.t),
        ParseFS = inl tmpl ->
        http_Get 0 (pokemon_url (spec_id (resolved_name r) 151)) = GetReturns b ->
        Decode foldName (pokeAPIResponse_fields foldName) b pokeAPIResponse.zero
        = (poke, None) ->
        evolution_fetch_fails foldName http_Get (linked.URL (pokeAPIResponse.Species poke)) ->
        let data := assemble foldName http_Get poke in
        let params :=
          {| indexTemplateParams.Name := resolved_name r;
             indexTemplateParams.Version := env Getenv "VERSION" "cafard-edition";
             indexTemplateParams.PokemonID := spec_id (resolved_name r) 151;
             indexTemplateParams.PokemonName := pokemonData.Name data;
             indexTemplateParams.Types := pokemonData.Types data;
             indexTemplateParams.Stats := pokemonData.Stats data;
             indexTemplateParams.Evolutions := [];
             indexTemplateParams.PokemonSprite := pokemonData.Sprite data |} in
        (tmpl title params).2 = None ->
        exists w',
          index foldName http_Get Error Getenv ParseFS fresh r
          = Returns (w', Some (resolved_name r, pokemonData.Name data))
          /\ w' = fold_left (fun w data => Write data w) (tmpl title params).1 fresh
          /\ status_sent w' = 200).
Proof.
  split; [apply fetchPokemon_error_iff |].
  split.
  - intros b poke Hget Hdec Hfail.
    rewrite (fetchPokemon_decoded _ _ _ Hget Hdec). simpl.
    repeat split. apply fetchEvolutions_fetch_fails. exact Hfail.
  - intros tmpl b poke Hparse Hget Hdec Hfail data params Hok.
    rewrite (index_fetched _ _ _ _ _ Hparse Hget Hdec). cbv zeta.
    change (pokemonData.Evolutions (assemble foldName http_Get poke))
      with (fetchEvolutions foldName http_Get (linked.URL (pokeAPIResponse.Species poke))).
    rewrite (fetchEvolutions_fetch_fails _ Hfail).
    fold data. fold params. unfold Execute.
    destruct (tmpl title params) as [writes err] eqn:Hrun.
    simpl in Hok. subst err.
    eexists. split; [reflexivity |]. split; [reflexivity |].
    apply writes_status. reflexivity.
Qed.

(** An absent [name] parameter reads as the empty string. *)
Lemma Values_Get_absent (v : gmap string (list string)) (key : string) :
  v !! key = None -> Values_Get v key = "".
Proof. intros H. unfold Values_Get. rewrite H. reflexivity. Qed.

(** C6: a request whose [name] parameter is absent or empty is handled as
    a request with [name=cafard]: same name hashed, fetched and rendered,
    same response, same log line. *)
Theorem index_default_name (w : ResponseWriter) (r r' : Request) :
  Query r !! "name" = None \/ Values_Get (Query r) "name" = "" ->
  Values_Get (Query r') "name" = "cafard" ->
  resolved_name r = "cafard"
  /\ index foldName http_Get Error Getenv ParseFS w r
     = index foldName http_Get Error Getenv ParseFS w r'.
Proof.
  intros Hr Hr'.
  assert (E : Values_Get (Query r) "name" = "").
  { destruct Hr as [Hr | Hr]; [apply Values_Get_absent |]; exact Hr. }
  unfold resolved_name, index. rewrite E, Hr'. split; reflexivity.
Qed.

(** Writing one field of a struct leaves the others as they are. *)
Definition lawful {T : Type} (fs : list (field T)) : Prop :=
  forall f g, In f fs -> In g fs -> f <> g ->
    forall (x : ftype g) (v : T), get f (set g x v) = get f v.

Lemma field_for_In {T : Type} (fs : list (field T)) (key : string) (f : field T) :
  field_for foldName fs key = Some f -> In f fs.
Proof.
  unfold field_for.
  destruct (find (fun f => bool_decide (tag f = key)) fs) as [g |] eqn:Hexact.
  - intros [= <-]. exact (proj1 (find_some _ _ Hexact)).
  - intros Hfold. exact (proj1 (find_some _ _ Hfold)).
Qed.

(** A member that does not select [f] leaves [f] as it is. *)
Lemma member_other {T : Type} (fs : list (field T)) (f : field T)
    (acc : T * option error) (m : string * json) :
  lawful fs -> In f fs ->
  tag <$> field_for foldName fs m.1 <> Some (tag f) ->
  get f (member foldName fs acc m).1 = get f acc.1.
Proof.
  intros Hlaw Hf Hm. unfold member.
  destruct (field_for foldName fs m.1) as [g |] eqn:Hsel; [| reflexivity].
  unfold store. destruct (dec g m.2 (get g acc.1)) as [x e]. simpl.
  apply Hlaw; [exact Hf | exact (field_for_In _ _ _ Hsel) |].
  intros ->. apply Hm. reflexivity.
Qed.

Lemma members_other {T : Type} (fs : list (field T)) (f : field T)
    (members : list (string * json)) (acc : T * option error) :
  lawful fs -> In f fs -> missing foldName fs (tag f) members ->
  get f (fold_left (member foldName fs) members acc).1 = get f acc.1.
Proof.
  intros Hlaw Hf. revert acc.
  induction members as [| m members IH]; intros acc Hmiss; simpl; [reflexivity |].
  inversion Hmiss as [| ? ? Hm Hrest]; subst.
  rewrite IH by exact Hrest. apply member_other; assumption.
Qed.

Ltac lawful_fields :=
  intros f g Hf Hg Hne x v; simpl in Hf, Hg;
  repeat (destruct Hf as [<- | Hf]; [| try contradiction]);
  repeat (destruct Hg as [<- | Hg]; [| try contradiction]);
  solve [ reflexivity | exfalso; apply Hne; reflexivity ].

Lemma named_lawful : lawful (named_fields).
Proof. lawful_fields. Qed.

Lemma linked_lawful : lawful (linked_fields).
Proof. lawful_fields. Qed.

Lemma typeSlot_lawful : lawful (typeSlot_fields foldName).
Proof. lawful_fields. Qed.

Lemma statSlot_lawful : lawful (statSlot_fields foldName).
Proof. lawful_fields. Qed.

Lemma official_lawful : lawful (official_fields).
Proof. lawful_fields. Qed.

Lemma other_lawful : lawful (other_fields foldName).
Proof. lawful_fields. Qed.

Lemma sprites_lawful : lawful (sprites_fields foldName).
Proof. lawful_fields. Qed.

Lemma pokeAPIResponse_lawful : lawful (pokeAPIResponse_fields foldName).
Proof. lawful_fields. Qed.

Lemma speciesResponse_lawful : lawful (speciesResponse_fields foldName).
Proof. lawful_fields. Qed.

Lemma secondStage_lawful : lawful (secondStage_fields foldName).
Proof. lawful_fields. Qed.

Lemma firstStage_lawful : lawful (firstStage_fields foldName).
Proof. lawful_fields. Qed.

Lemma chainNode_lawful : lawful (chainNode_fields foldName).
Proof. lawful_fields. Qed.

Lemma chainResponse_lawful : lawful (chainResponse_fields foldName).
Proof. lawful_fields. Qed.

(** An evolution-chain response that is not JSON leaves the chain struct
    at its zero value, and the loops emit its empty base name. *)
Lemma fetchEvolutions_chain_not_json (speciesURL : string) (body1 : body) (err : error) :
  http_Get 1 speciesURL = GetReturns body1 ->
  http_Get 2
    (linked.URL (speciesResponse.EvolutionChain
       (Decode foldName (speciesResponse_fields foldName) body1 speciesResponse.zero).1))
  = GetReturns (NotJSON err) ->
  fetchEvolutions foldName http_Get speciesURL = [""].
Proof.
  intros H1 H2. rewrite (fetchEvolutions_answered _ _ _ H1 H2). reflexivity.
Qed.

(** A species response that is not JSON leaves the chain URL empty: the
    next request goes to the empty URL. *)
Lemma fetchEvolutions_species_not_json (speciesURL : string) (err : error) :
  http_Get 1 speciesURL = GetReturns (NotJSON err) ->
  fetchEvolutions foldName http_Get speciesURL
  = match http_Get 2 "" with
    | GetFails _ => []
    | GetReturns body2 =>
        flatten (Decode foldName (chainResponse_fields foldName) body2
                   chainResponse.zero).1
    end.
Proof. intros H1. unfold fetchEvolutions. rewrite H1. reflexivity. Qed.

End Properties.

(** * The properties on the sample environment *)

Lemma fetchEvolutions_preorder_witness :
  sample.http_Get 1 "branching-species"
  = GetReturns (Doc (JObject [("evolution_chain", JObject [("url", JString "branching")])]))
  /\ sample.http_Get 2 "branching" = GetReturns (Doc sample.branching)
  /\ fetchEvolutions sample.foldName sample.http_Get "branching-species"
     = ["wurmple"; "silcoon"; "beautifly"; "cascoon"; "dustox"].
Proof.
  split; [reflexivity |]. split; [reflexivity |].
  exact (proj1 (fetchEvolutions_preorder sample.foldName sample.http_Get
                  "branching-species" _ _
                  (Decode sample.foldName (chainResponse_fields sample.foldName)
                     (Doc sample.branching) chainResponse.zero).1
                  eq_refl eq_refl eq_refl)).
Defined.

Lemma stats_unique_last_wins_witness :
  let net :=
    sample.http_Get_but "https://pokeapi.co/api/v2/pokemon/97"
      (GetReturns (Doc sample.detail_repeated)) in
  net 0%nat (pokemon_url 97) = GetReturns (Doc sample.detail_repeated)
  /\ NoDup (map_to_list (pokemonData.Stats (fetchPokemon sample.foldName net 97).1)).*1
  /\ pokemonData.Stats (fetchPokemon sample.foldName net 97).1 !! "hp" = Some 90
  /\ pokemonData.Stats (fetchPokemon sample.foldName net 97).1 !! "attack" = Some 73.
Proof.
  intros net. split; [reflexivity |].
  pose proof (stats_unique_last_wins sample.foldName net 97
                (Doc sample.detail_repeated)
                (Decode sample.foldName (pokeAPIResponse_fields sample.foldName)
                   (Doc sample.detail_repeated) pokeAPIResponse.zero).1
                [statSlot.Make 85 (named.Make "hp"); statSlot.Make 73 (named.Make "attack")]
                [] (statSlot.Make 90 (named.Make "hp"))
                eq_refl eq_refl eq_refl (List.Forall_nil _)) as [Hnodup Hhp].
  split; [exact Hnodup |]. split; [exact Hhp |].
  vm_compute. reflexivity.
Defined.

Lemma fetchPokemon_error_policy_witness :
  let net := sample.http_Get_first 1 in
  let r := {| Query := ∅ |} in
  evolution_fetch_fails sample.foldName net sample.species_url
  /\ (fetchPokemon sample.foldName net 97).2 = None
  /\ pokemonData.Evolutions (fetchPokemon sample.foldName net 97).1 = []
  /\ exists w',
       index sample.foldName net sample.Error sample.Getenv sample.ParseFS fresh r
       = Returns (w', Some ("cafard", "hypno"))
       /\ w' = Writer (Some 200) "<h1>Hypno</h1>"
       /\ status_sent w' = 200.
Proof.
  intros net r.
  assert (Hfail : evolution_fetch_fails sample.foldName net sample.species_url).
  { left. exists sample.unreachable. reflexivity. }
  split; [exact Hfail |].
  pose proof (fetchPokemon_error_policy sample.foldName net sample.Error
                sample.Getenv sample.ParseFS 97 r) as (_ & Hfetch & Hindex).
  destruct (Hfetch (Doc sample.detail)
              (Decode sample.foldName (pokeAPIResponse_fields sample.foldName)
                 (Doc sample.detail) pokeAPIResponse.zero).1
              eq_refl eq_refl Hfail) as (Herr & Hevol & _).
  split; [exact Herr |]. split; [exact Hevol |].
  destruct (Hindex sample.tmpl (Doc sample.detail)
              (Decode sample.foldName (pokeAPIResponse_fields sample.foldName)
                 (Doc sample.detail) pokeAPIResponse.zero).1
              eq_refl eq_refl eq_refl Hfail eq_refl) as (w' & Hrun & Hw' & Hstatus).
  exists w'. split; [exact Hrun |]. split; [| exact Hstatus].
  rewrite Hw'. vm_compute. reflexivity.
Defined.

Lemma index_default_name_witness :
  let absent := {| Query := ∅ |} in
  let empty := {| Query := {[ "name" := [""] ]} |} in
  let cafard := {| Query := {[ "name" := ["cafard"] ]} |} in
  index sample.foldName sample.http_Get sample.Error sample.Getenv sample.ParseFS
    fresh absent
  = index sample.foldName sample.http_Get sample.Error sample.Getenv sample.ParseFS
      fresh cafard
  /\ index sample.foldName sample.http_Get sample.Error sample.Getenv sample.ParseFS
       fresh empty
     = index sample.foldName sample.http_Get sample.Error sample.Getenv sample.ParseFS
         fresh cafard
  /\ index sample.foldName sample.http_Get sample.Error sample.Getenv sample.ParseFS
       fresh cafard
     = Returns (Writer (Some 200) "<h1>Hypno</h1>drowzeehypno", Some ("cafard", "hypno")).
Proof.
  intros absent empty cafard.
  split; [| split].
  - apply (index_default_name sample.foldName sample.http_Get sample.Error
             sample.Getenv sample.ParseFS fresh absent cafard).
    + left. reflexivity.
    + reflexivity.
  - apply (index_default_name sample.foldName sample.http_Get sample.Error
             sample.Getenv sample.ParseFS fresh empty cafard).
    + right. reflexivity.
    + reflexivity.
  - vm_compute. reflexivity.
Defined.

(** A key selects its field whatever its case. *)
Example field_for_folded :
  tag <$> field_for sample.foldName (pokeAPIResponse_fields sample.foldName) "Types"
  = Some "types".
Proof. vm_compute. reflexivity. Qed.

(** Fields missing inside the nested objects and array elements of a
    detail response come out as zero values, with no error. *)
Example fetchPokemon_partial :
  fetchPokemon sample.foldName
    (sample.http_Get_but "https://pokeapi.co/api/v2/pokemon/97"
       (GetReturns (Doc sample.detail_partial))) 97
  = (pokemonData.Make "hypno" [""] {[ "" := 0 ]} "" [], None).
Proof. vm_compute. reflexivity. Qed.

(** Evolutions nested deeper than the third stage are not decoded. *)
Example fetchEvolutions_capped :
  fetchEvolutions sample.foldName
    (sample.http_Get_but sample.chain_url (GetReturns (Doc sample.deep)))
    sample.species_url
  = ["a"; "b"; "c"].
Proof. vm_compute. reflexivity. Qed.

(** The whole page of the sample Pokemon. *)
Example fetchPokemon_sample :
  fetchPokemon sample.foldName sample.http_Get 97
  = (pokemonData.Make "hypno" ["psychic"]
       (<[ "hp" := 85 ]> (<[ "attack" := 73 ]> {[ "speed" := 67 ]}))
       "97.png" ["drowzee"; "hypno"], None).
Proof. vm_compute. reflexivity. Qed.

(** * The failure policy of the flattener *)

(** C4 (the code departs from it): the species and the evolution-chain
    requests are answered, the evolution-chain body is not JSON. The
    [Decode] error is dropped, the chain keeps its zero value, and
    [fetchEvolutions] returns one empty name instead of no name; the
    record of [fetchPokemon] carries it. *)
Theorem unparsed_chain_not_empty :
  let net :=
    sample.http_Get_but sample.chain_url (GetReturns (NotJSON sample.not_json)) in
  net 2%nat sample.chain_url = GetReturns (NotJSON sample.not_json)
  /\ fetchEvolutions sample.foldName net sample.species_url = [""]
  /\ (fetchPokemon sample.foldName net 97).2 = None
  /\ pokemonData.Evolutions (fetchPokemon sample.foldName net 97).1 = [""]
  /\ pokemonData.Evolutions (fetchPokemon sample.foldName net 97).1 <> [].
Proof.
  intros net. split; [reflexivity |].
  assert (E : fetchEvolutions sample.foldName net sample.species_url = [""]).
  { apply (fetchEvolutions_chain_not_json sample.foldName net sample.species_url
             (Doc sample.species) sample.not_json); reflexivity. }
  split; [exact E |]. split; [reflexivity |].
  assert (R : pokemonData.Evolutions (fetchPokemon sample.foldName net 97).1
              = fetchEvolutions sample.foldName net sample.species_url)
    by reflexivity.
  rewrite R, E. split; [reflexivity | discriminate].
Qed.

(** * The text-casing helper *)

(** The empty string is returned as it is. *)
Lemma title_empty : title "" = "".
Proof. reflexivity. Qed.

(** On a string that starts with an ASCII byte, the first character is
    upper-cased and the rest is kept. *)
Lemma title_ascii (c : ascii) (rest : string) :
  (N_of_ascii c < 128)%N ->
  title (String c rest)
  = String (if (97 <=? N_of_ascii c)%N && (N_of_ascii c <=? 122)%N
            then ascii_of_N (N_of_ascii c - 32) else c) rest.
Proof.
  intros Hc. unfold title, ToUpper_1. cbv zeta.
  apply N.ltb_lt in Hc. rewrite Hc.
  destruct ((97 <=? N_of_ascii c)%N && (N_of_ascii c <=? 122)%N); reflexivity.
Qed.

Example title_pikachu : title "pikachu" = "Pikachu".
Proof. reflexivity. Qed.

(** C7 (the code departs from it): [s[:1]] is the first byte, not the
    first character. On a string that starts with a two-byte character
    the helper upper-cases nothing: it replaces the first byte by U+FFFD
    and leaves the second byte behind it. *)
Theorem title_first_byte_only :
  title sample.e_acute = RuneError +:+ String (ascii_of_nat 169) EmptyString
  /\ title sample.e_acute <> sample.E_acute
  /\ title sample.e_acute <> sample.e_acute.
Proof.
  split; [reflexivity |]. split; vm_compute; discriminate.
Qed.

(** * Further properties of the handler *)

Section Handler.

Variable foldName : string -> string.
Variable http_Get : nat -> string -> get_result.
Variable Error : error -> string.
Variable Getenv : string -> string.

(** [index] by its three stages: parse, fetch, render. *)
Lemma index_stages (ParseFS : template + error) (w : ResponseWriter) (r : Request) :
  index foldName http_Get Error Getenv ParseFS w r
  = let name := resolved_name r in
    let pid := spec_id name 151 in
    match ParseFS with
    | inr err => Returns (http_Error w (Error err) 500, None)
    | inl tmpl =>
        match fetchPokemon foldName http_Get pid with
        | (_, Some err) => Returns (http_Error w (Error err) 500, None)
        | (poke, None) =>
            match Execute tmpl w (page Getenv name pid poke) with
            | (w', Some err) => Returns (http_Error w' (Error err) 500, None)
            | (w', None) => Returns (w', Some (name, pokemonData.Name poke))
            end
        end
    end.
Proof.
  unfold index. fold (resolved_name r). cbv zeta.
  destruct ParseFS as [tmpl | err]; [| reflexivity].
  rewrite pokemonID_spec_id by lia. reflexivity.
Qed.

(** A status, once written, stays through later writes. *)
Lemma writes_keep_status (writes : list string) (w : ResponseWriter) (code : Z) :
  status w = Some code ->
  status (fold_left (fun w data => Write data w) writes w) = Some code.
Proof.
  revert w. induction writes as [| data writes IH]; intros w Hw; simpl; [exact Hw |].
  apply IH. destruct w as [st out]. simpl in Hw. subst st. reflexivity.
Qed.

(** The first write of a handler that has written nothing sends 200. *)
Lemma writes_fresh_status (writes : list string) :
  status (fold_left (fun w data => Write data w) writes fresh)
  = match writes with [] => None | _ :: _ => Some 200 end.
Proof.
  destruct writes as [| data writes]; [reflexivity |].
  simpl. apply writes_keep_status. reflexivity.
Qed.

(** The writes reach the body in order. *)
Lemma writes_sent (writes : list string) (w : ResponseWriter) :
  sent (fold_left (fun w data => Write data w) writes w)
  = fold_left String.append writes (sent w).
Proof.
  revert w. induction writes as [| data writes IH]; intros w; simpl; [reflexivity |].
  rewrite IH. destruct w as [[code |] out]; reflexivity.
Qed.

(** [http.Error] cannot change a status that was already sent. *)
Lemma http_Error_status (w : ResponseWriter) (msg : string) (code : Z) :
  status (http_Error w msg code) = Some (default code (status w)).
Proof. destruct w as [[c |] out]; reflexivity. Qed.

(** [http.Error] appends its line to what was sent. *)
Lemma http_Error_sent (w : ResponseWriter) (msg : string) (code : Z) :
  sent (http_Error w msg code) = sent w +:+ (msg +:+ newline).
Proof. destruct w as [[c |] out]; reflexivity. Qed.

(** Whenever its outbound requests return, with an answer or with an
    error, the handler returns too, for every request, template and
    environment: it does not panic, the status it sends is 200 or 500, and
    it reaches its log line only with status 200. *)
Theorem index_returns_200_or_500 (ParseFS : template + error) (r : Request) :
  exists w log,
    index foldName http_Get Error Getenv ParseFS fresh r = Returns (w, log)
    /\ (status_sent w = 200 \/ status_sent w = 500)
    /\ (is_Some log -> status_sent w = 200).
Proof.
  rewrite index_stages. cbv zeta.
  destruct ParseFS as [tmpl | err].
  - destruct (fetchPokemon foldName http_Get (spec_id (resolved_name r) 151))
      as [poke [err |]].
    + eexists _, _. split; [reflexivity |]. split; [right; reflexivity |].
      intros [x Hx]. discriminate Hx.
    + unfold Execute.
      destruct (tmpl title (page Getenv (resolved_name r)
                  (spec_id (resolved_name r) 151) poke)) as [writes [err |]].
      * eexists _, _. split; [reflexivity |].
        split; [| intros [x Hx]; discriminate Hx].
        unfold status_sent. rewrite http_Error_status, writes_fresh_status.
        destruct writes; [right | left]; reflexivity.
      * eexists _, _. split; [reflexivity |].
        assert (H : status_sent (fold_left (fun w data => Write data w) writes fresh) = 200)
          by (apply writes_status; reflexivity).
        split; [left; exact H | intros _; exact H].
  - eexists _, _. split; [reflexivity |]. split; [right; reflexivity |].
    intros [x Hx]. discriminate Hx.
Qed.

(** A failure before rendering, of the template parse or of the fetch,
    is answered with status 500 and the text of the error followed by a
    newline; nothing else is sent and the log line is not reached. A parse
    failure gives this answer whatever the request and the network are. *)
Theorem index_failure_before_render (r : Request) (err : error) :
  index foldName http_Get Error Getenv (inr err) fresh r
  = Returns (Writer (Some 500) (Error err +:+ newline), None)
  /\ (forall tmpl : template,
        (fetchPokemon foldName http_Get (spec_id (resolved_name r) 151)).2 = Some err ->
        index foldName http_Get Error Getenv (inl tmpl) fresh r
        = Returns (Writer (Some 500) (Error err +:+ newline), None)).
Proof.
  split; [reflexivity |].
  intros tmpl Hfetch. rewrite index_stages. cbv zeta.
  destruct (fetchPokemon foldName http_Get (spec_id (resolved_name r) 151))
    as [poke [err' |]]; simpl in Hfetch; [| discriminate Hfetch].
  injection Hfetch as ->. reflexivity.
Qed.

(** When the template fails while rendering, what it wrote before stays in
    the body and the error text follows it; the status is 500 only if
    nothing had been written, and 200 otherwise, since the first write has
    sent it. The log line is not reached. *)
Theorem index_render_failure
    (tmpl : template) (r : Request) (poke : pokemonData.t)
    (writes : list string) (err : error) :
  fetchPokemon foldName http_Get (spec_id (resolved_name r) 151) = (poke, None) ->
  tmpl title (page Getenv (resolved_name r) (spec_id (resolved_name r) 151) poke)
  = (writes, Some err) ->
  exists w,
    index foldName http_Get Error Getenv (inl tmpl) fresh r = Returns (w, None)
    /\ sent w = fold_left String.append writes EmptyString +:+ (Error err +:+ newline)
    /\ status_sent w = match writes with [] => 500 | _ :: _ => 200 end.
Proof.
  intros Hfetch Hrun. rewrite index_stages. cbv zeta.
  rewrite Hfetch. unfold Execute. rewrite Hrun.
  eexists. split; [reflexivity |]. split.
  - rewrite http_Error_sent, writes_sent. reflexivity.
  - unfold status_sent. rewrite http_Error_status, writes_fresh_status.
    destruct writes; reflexivity.
Qed.

(** The log line is reached exactly when the template parsed, the fetch
    returned no error and the rendering returned no error; it then names
    the resolved name and the name of the fetched Pokemon. *)
Theorem index_log_on_success
    (ParseFS : template + error) (r : Request)
    (w : ResponseWriter) (log : option (string * string)) :
  index foldName http_Get Error Getenv ParseFS fresh r = Returns (w, log) ->
  let name := resolved_name r in
  let fetched := fetchPokemon foldName http_Get (spec_id name 151) in
  (is_Some log <->
     exists tmpl, ParseFS = inl tmpl /\ fetched.2 = None
       /\ (tmpl title (page Getenv name (spec_id name 151) fetched.1)).2 = None)
  /\ (forall line, log = Some line -> line = (name, pokemonData.Name fetched.1)).
Proof.
  rewrite index_stages. cbv zeta.
  destruct ParseFS as [tmpl | perr].
  - destruct (fetchPokemon foldName http_Get (spec_id (resolved_name r) 151))
      as [poke [ferr |]] eqn:Hfetch; simpl.
    + intros [= <- <-]. split; [| intros line Hl; discriminate Hl].
      split; [intros [x Hx]; discriminate Hx |].
      intros (t & _ & Hnone & _). discriminate Hnone.
    + unfold Execute.
      destruct (tmpl title (page Getenv (resolved_name r)
                  (spec_id (resolved_name r) 151) poke)) as [writes [rerr |]] eqn:Hrun.
      * intros [= <- <-]. split; [| intros line Hl; discriminate Hl].
        split; [intros [x Hx]; discriminate Hx |].
        intros (t & Ht & _ & Hnone). injection Ht as <-.
        rewrite Hrun in Hnone. discriminate Hnone.
      * intros [= <- <-]. split.
        -- split; [| eauto]. intros _. exists tmpl. rewrite Hrun. auto.
        -- intros line [= <-]. reflexivity.
  - intros [= <- <-]. split; [| intros line Hl; discriminate Hl].
    split; [intros [x Hx]; discriminate Hx |].
    intros (t & Ht & _). discriminate Ht.
Qed.

End Handler.

(** * Further properties of the fetcher *)

Section Fetcher.

Variable foldName : string -> string.
Variable http_Get : nat -> string -> get_result.

(** When [fetchPokemon] returns an error, the record it returns with it
    is the zero record: no field of a half-read response gets out. *)
Theorem fetchPokemon_error_zero (id : Z) (err : error) :
  (fetchPokemon foldName http_Get id).2 = Some err ->
  (fetchPokemon foldName http_Get id).1 = pokemonData.zero.
Proof.
  unfold fetchPokemon.
  destruct (http_Get 0 (pokemon_url id)) as [e | b]; [reflexivity |].
  destruct (Decode foldName (pokeAPIResponse_fields foldName) b pokeAPIResponse.zero)
    as [poke [e |]]; [reflexivity |].
  intros H. discriminate H.
Qed.

(** The types of the record are the type names of the response, in its
    order and with its repetitions. *)
Theorem fetchPokemon_types_in_order (id : Z) (b : body) (poke : pokeAPIResponse.t) :
  http_Get 0 (pokemon_url id) = GetReturns b ->
  Decode foldName (pokeAPIResponse_fields foldName) b pokeAPIResponse.zero = (poke, None) ->
  pokemonData.Types (fetchPokemon foldName http_Get id).1
  = map (fun t => named.Name (typeSlot.Type_ t)) (elems (pokeAPIResponse.Types poke)).
Proof.
  intros Hget Hdec. rewrite (fetchPokemon_decoded _ _ _ _ _ Hget Hdec). simpl.
  exact (fold_left_snoc (fun t => named.Name (typeSlot.Type_ t))
           (elems (pokeAPIResponse.Types poke)) []).
Qed.

(** A key is in the map after the loop iff it was there before or some
    element of the list carries it. *)
Lemma stats_loop_is_Some (l : list statSlot.t) (m : gmap string Z) (k : string) :
  is_Some
    (fold_left
       (fun stats s => <[ named.Name (statSlot.Stat s) := statSlot.BaseStat s ]> stats) l m
     !! k)
  <-> is_Some (m !! k) \/ exists s, In s l /\ named.Name (statSlot.Stat s) = k.
Proof.
  revert m. induction l as [| s l IH]; intros m; simpl.
  - split; [auto | intros [H | (s & [] & _)]; exact H].
  - rewrite IH, lookup_insert_is_Some. split.
    + intros [[Heq | [_ Hm]] | (s' & Hin & Hs')]; eauto.
    + intros [Hm | (s' & [<- | Hin] & Hs')]; [| auto | eauto].
      destruct (decide (named.Name (statSlot.Stat s) = k)); auto.
Qed.

(** The loop adds at most one key for each element. *)
Lemma stats_loop_size (l : list statSlot.t) (m : gmap string Z) :
  (size
     (fold_left
        (fun stats s => <[ named.Name (statSlot.Stat s) := statSlot.BaseStat s ]> stats) l m)
   <= size m + List.length l)%nat.
Proof.
  revert m. induction l as [| s l IH]; intros m; simpl; [lia |].
  etransitivity; [apply IH |].
  destruct (m !! named.Name (statSlot.Stat s)) eqn:Hm.
  - rewrite map_size_insert_Some by (rewrite Hm; eauto). lia.
  - rewrite map_size_insert_None by exact Hm. lia.
Qed.

(** The keys of the stats are exactly the stat names of the response: a
    name that the response does not list is absent from the map, and the
    map has no more keys than the response has stats. *)
Theorem fetchPokemon_stats_keys
    (id : Z) (b : body) (poke : pokeAPIResponse.t) (k : string) :
  http_Get 0 (pokemon_url id) = GetReturns b ->
  Decode foldName (pokeAPIResponse_fields foldName) b pokeAPIResponse.zero = (poke, None) ->
  (is_Some (pokemonData.Stats (fetchPokemon foldName http_Get id).1 !! k)
   <-> exists s, In s (elems (pokeAPIResponse.Stats poke))
                 /\ named.Name (statSlot.Stat s) = k)
  /\ (size (pokemonData.Stats (fetchPokemon foldName http_Get id).1)
      <= List.length (elems (pokeAPIResponse.Stats poke)))%nat.
Proof.
  intros Hget Hdec. rewrite (fetchPokemon_decoded _ _ _ _ _ Hget Hdec). simpl. split.
  - rewrite stats_loop_is_Some. split; [| eauto].
    intros [[x Hx] | H]; [| exact H]. rewrite lookup_empty in Hx. discriminate Hx.
  - etransitivity; [apply stats_loop_size |]. rewrite map_size_empty. lia.
Qed.

(** With distinct names, the loop adds one key for each element. *)
Lemma stats_loop_size_distinct (l : list statSlot.t) (m : gmap string Z) :
  List.NoDup (map (fun s => named.Name (statSlot.Stat s)) l) ->
  (forall s, In s l -> m !! named.Name (statSlot.Stat s) = None) ->
  size
    (fold_left
       (fun stats s => <[ named.Name (statSlot.Stat s) := statSlot.BaseStat s ]> stats) l m)
  = (size m + List.length l)%nat.
Proof.
  revert m. induction l as [| s l IH]; intros m Hnd Hm; simpl; [lia |].
  inversion Hnd as [| ? ? Hnotin Hnd']; subst.
  rewrite IH.
  - rewrite map_size_insert_None by (apply Hm; left; reflexivity). lia.
  - exact Hnd'.
  - intros s' Hin. rewrite lookup_insert_ne.
    + apply Hm. right. exact Hin.
    + intros Heq. apply Hnotin. rewrite Heq.
      apply (in_map (fun s => named.Name (statSlot.Stat s))). exact Hin.
Qed.

(** When the stat names of the response are distinct, no stat is lost:
    the map has one key for each stat and gives each name its base stat. *)
Theorem fetchPokemon_stats_distinct
    (id : Z) (b : body) (poke : pokeAPIResponse.t) :
  http_Get 0 (pokemon_url id) = GetReturns b ->
  Decode foldName (pokeAPIResponse_fields foldName) b pokeAPIResponse.zero = (poke, None) ->
  List.NoDup (map (fun s => named.Name (statSlot.Stat s))
                  (elems (pokeAPIResponse.Stats poke))) ->
  size (pokemonData.Stats (fetchPokemon foldName http_Get id).1)
  = List.length (elems (pokeAPIResponse.Stats poke))
  /\ (forall s, In s (elems (pokeAPIResponse.Stats poke)) ->
        pokemonData.Stats (fetchPokemon foldName http_Get id).1
          !! named.Name (statSlot.Stat s) = Some (statSlot.BaseStat s)).
Proof.
  intros Hget Hdec Hnd. rewrite (fetchPokemon_decoded _ _ _ _ _ Hget Hdec). simpl.
  split.
  - rewrite stats_loop_size_distinct; [rewrite map_size_empty; lia | exact Hnd |].
    intros s _. apply lookup_empty.
  - intros s Hin. destruct (in_split _ _ Hin) as (before & after & Hsplit).
    rewrite Hsplit. apply stats_loop_last.
    rewrite Hsplit, map_app in Hnd. simpl in Hnd.
    apply List.NoDup_remove_2 in Hnd.
    apply List.Forall_forall. intros s' Hs' Heq. apply Hnd.
    apply in_or_app. right. rewrite <- Heq.
    apply (in_map (fun s => named.Name (statSlot.Stat s))). exact Hs'.
Qed.

End Fetcher.

(** * Further properties of the evolution path *)

Section Evolutions.

Variable foldName : string -> string.
Variable http_Get : nat -> string -> get_result.

(** [fetchEvolutions] returns no name exactly when one of its two requests
    fails: once both are answered the list holds at least the base name,
    whatever the bodies are. *)
Theorem fetchEvolutions_empty_iff (speciesURL : string) :
  fetchEvolutions foldName http_Get speciesURL = []
  <-> evolution_fetch_fails foldName http_Get speciesURL.
Proof.
  split; [| apply fetchEvolutions_fetch_fails].
  unfold fetchEvolutions, evolution_fetch_fails.
  destruct (http_Get 1 speciesURL) as [err | body1]; [eauto |].
  destruct (http_Get 2
              (linked.URL (speciesResponse.EvolutionChain
                 (Decode foldName (speciesResponse_fields foldName) body1
                    speciesResponse.zero).1))) as [err | body2] eqn:H2.
  - intros _. right. exists body1, err. auto.
  - rewrite flatten_preorder. intros H. discriminate H.
Qed.

(** The length of the pre-order list. *)
Lemma preorder_length (chain : chainResponse.t) :
  List.length (preorder chain)
  = S (fold_right
         (fun e n => (S (List.length (elems (firstStage.EvolvesTo e))) + n)%nat) 0%nat
         (elems (chainNode.EvolvesTo (chainResponse.Chain chain)))).
Proof.
  unfold preorder. simpl. f_equal.
  induction (elems (chainNode.EvolvesTo (chainResponse.Chain chain))) as [| e es IH];
    simpl; [reflexivity |].
  rewrite length_app, length_map, IH. reflexivity.
Qed.

(** When both requests are answered, the list has one name for the base
    species, one for each first-stage evolution and one for each of their
    second-stage evolutions: no name is dropped and none is merged with an
    equal one. *)
Theorem fetchEvolutions_length (speciesURL : string) (body1 body2 : body) :
  http_Get 1 speciesURL = GetReturns body1 ->
  http_Get 2
    (linked.URL (speciesResponse.EvolutionChain
       (Decode foldName (speciesResponse_fields foldName) body1 speciesResponse.zero).1))
  = GetReturns body2 ->
  List.length (fetchEvolutions foldName http_Get speciesURL)
  = S (fold_right
         (fun e n => (S (List.length (elems (firstStage.EvolvesTo e))) + n)%nat) 0%nat
         (elems (chainNode.EvolvesTo (chainResponse.Chain
            (Decode foldName (chainResponse_fields foldName) body2
               chainResponse.zero).1)))).
Proof.
  intros H1 H2. rewrite (fetchEvolutions_answered _ _ _ _ _ H1 H2).
  rewrite flatten_preorder. apply preorder_length.
Qed.

(** A species response that gives no chain URL, because it is not JSON or
    because it is an object without an [evolution_chain] member, sends the
    evolution-chain request to the empty URL. *)
Theorem fetchEvolutions_no_chain_url (speciesURL : string) (body1 : body) :
  http_Get 1 speciesURL = GetReturns body1 ->
  (exists err, body1 = NotJSON err)
  \/ (exists members,
        body1 = Doc (JObject members)
        /\ missing foldName (speciesResponse_fields foldName) "evolution_chain" members) ->
  fetchEvolutions foldName http_Get speciesURL
  = match http_Get 2 "" with
    | GetFails _ => []
    | GetReturns body2 =>
        flatten (Decode foldName (chainResponse_fields foldName) body2
                   chainResponse.zero).1
    end.
Proof.
  intros H1 Hbody. unfold fetchEvolutions. rewrite H1.
  assert (E : speciesResponse.EvolutionChain
                (Decode foldName (speciesResponse_fields foldName) body1
                   speciesResponse.zero).1 = linked.zero).
  { destruct Hbody as [[err ->] | (members & -> & Hmiss)]; [reflexivity |].
    apply (members_other foldName (speciesResponse_fields foldName)
             (Field "evolution_chain" speciesResponse.EvolutionChain
                (fun x _ => speciesResponse.Make x)
                (dec_struct foldName linked_fields))
             members (speciesResponse.zero, None)
             (speciesResponse_lawful foldName)).
    - left. reflexivity.
    - exact Hmiss. }
  rewrite E. reflexivity.
Qed.

(** [fetchEvolutions] reads the network only at its second and third
    request. *)
Lemma fetchEvolutions_agree (net' : nat -> string -> get_result) (speciesURL : string) :
  (forall url, net' 1%nat url = http_Get 1 url) ->
  (forall url, net' 2%nat url = http_Get 2 url) ->
  fetchEvolutions foldName net' speciesURL = fetchEvolutions foldName http_Get speciesURL.
Proof.
  intros H1 H2. unfold fetchEvolutions. rewrite H1.
  destruct (http_Get 1 speciesURL) as [err | body1]; [reflexivity |].
  rewrite H2. reflexivity.
Qed.

(** [fetchPokemon] makes at most three requests and the first goes to the
    detail URL of its identifier: two networks that answer alike there and
    at every second and third request give the same record and error. *)
Theorem fetchPokemon_three_requests (net' : nat -> string -> get_result) (id : Z) :
  net' 0%nat (pokemon_url id) = http_Get 0 (pokemon_url id) ->
  (forall url, net' 1%nat url = http_Get 1 url) ->
  (forall url, net' 2%nat url = http_Get 2 url) ->
  fetchPokemon foldName net' id = fetchPokemon foldName http_Get id.
Proof.
  intros H0 H1 H2. unfold fetchPokemon. rewrite H0.
  destruct (http_Get 0 (pokemon_url id)) as [err | b]; [reflexivity |].
  destruct (Decode foldName (pokeAPIResponse_fields foldName) b pokeAPIResponse.zero)
    as [poke [err |]]; [reflexivity |].
  unfold assemble. rewrite (fetchEvolutions_agree net' _ H1 H2). reflexivity.
Qed.

(** Members that select no field leave the fold as it is. *)
Lemma members_filter {T : Type} (fs : list (field T))
    (members : list (string * json)) (acc : T * option error) :
  fold_left (member foldName fs) members acc
  = fold_left (member foldName fs)
      (filter (fun m => is_Some (field_for foldName fs m.1)) members) acc.
Proof.
  revert acc. induction members as [| m members IH]; intros acc; [reflexivity |].
  rewrite filter_cons. simpl. rewrite IH. case_decide as Hsel; [reflexivity |].
  f_equal. unfold member.
  destruct (field_for foldName fs m.1) as [f |]; [| reflexivity].
  exfalso. apply Hsel. eauto.
Qed.

(** The members of a response whose key selects no field of the struct it
    is decoded into are ignored: the detail, species and evolution-chain
    responses decode to the same struct and error with and without them. *)
Theorem unknown_members_ignored (members : list (string * json)) :
  (forall v,
     Decode foldName (pokeAPIResponse_fields foldName) (Doc (JObject members)) v
     = Decode foldName (pokeAPIResponse_fields foldName)
         (Doc (JObject
            (filter (fun m => is_Some (field_for foldName
                                         (pokeAPIResponse_fields foldName) m.1))
                    members))) v)
  /\ (forall v,
        Decode foldName (speciesResponse_fields foldName) (Doc (JObject members)) v
        = Decode foldName (speciesResponse_fields foldName)
            (Doc (JObject
               (filter (fun m => is_Some (field_for foldName
                                            (speciesResponse_fields foldName) m.1))
                       members))) v)
  /\ (forall v,
        Decode foldName (chainResponse_fields foldName) (Doc (JObject members)) v
        = Decode foldName (chainResponse_fields foldName)
            (Doc (JObject
               (filter (fun m => is_Some (field_for foldName
                                            (chainResponse_fields foldName) m.1))
                       members))) v).
Proof.
  repeat split; intros v; unfold Decode, dec_struct; apply members_filter.
Qed.

End Evolutions.

(** * From the documents of the PokeAPI to the record *)

Section RoundTrips.

Variable foldName : string -> string.
Variable http_Get : nat -> string -> get_result.

(** An array of encoded items decodes, into a slice with nothing behind
    it, to the items' values in order. *)
Lemma array_elems_map {A E : Type} (zero : E) (d : decoder E)
    (enc : A -> json) (val : A -> E) (P : A -> Prop) (xs : list A) :
  (forall x, P x -> d (enc x) zero = (val x, None)) ->
  Forall P xs ->
  array_elems zero d (map enc xs) [] = (map val xs, [], None).
Proof.
  intros Hd Hxs. induction Hxs as [| x xs Hx _ IH]; simpl; [reflexivity |].
  rewrite (Hd x Hx), IH. reflexivity.
Qed.

Lemma dec_slice_map {A E : Type} (zero : E) (d : decoder E)
    (enc : A -> json) (val : A -> E) (P : A -> Prop) (xs : list A) :
  (forall x, P x -> d (enc x) zero = (val x, None)) ->
  Forall P xs ->
  dec_slice zero d (JArray (map enc xs)) nil_slice = (Slice (map val xs) [], None).
Proof.
  intros Hd Hxs. unfold dec_slice.
  destruct xs as [| x xs]; [reflexivity |].
  change (map enc (x :: xs)) with (enc x :: map enc xs) at 1.
  cbv iota. change (enc x :: map enc xs) with (map enc (x :: xs)).
  change (elems nil_slice ++ spare nil_slice) with (@nil E).
  rewrite (array_elems_map zero d enc val P (x :: xs) Hd Hxs). reflexivity.
Qed.

Lemma fold_left_map {A B C : Type} (f : C -> B -> C) (g : A -> B) (l : list A) (c : C) :
  fold_left f (map g l) c = fold_left (fun c x => f c (g x)) l c.
Proof. revert c. induction l as [| x l IH]; intros c; simpl; [reflexivity | apply IH]. Qed.

(** A member whose key selects the field at position [n]. *)
Lemma member_at {T : Type} (fs : list (field T)) (acc : T * option error)
    (key : string) (j : json) (n : nat) (f : field T) :
  nth_error fs n = Some f ->
  field_for foldName fs key = nth_error fs n ->
  member foldName fs acc (key, j)
  = (set f (dec f j (get f acc.1)).1 acc.1, saveError acc.2 (dec f j (get f acc.1)).2).
Proof.
  intros Hn Hsel. unfold member, store. simpl. rewrite Hsel, Hn.
  destruct (dec f j (get f acc.1)) as [x e]. reflexivity.
Qed.

Lemma decode_name_object (n : string) (v : named.t) :
  dec_struct foldName named_fields (api.name_object n) v = (named.Make n, None).
Proof. reflexivity. Qed.

Lemma decode_type_item (n : string) :
  dec_struct foldName (typeSlot_fields foldName) (api.type_item n) typeSlot.zero
  = (typeSlot.Make (named.Make n), None).
Proof. reflexivity. Qed.

Lemma decode_stat_item (s : string * Z) :
  - 2 ^ 63 <= s.2 < 2 ^ 63 ->
  dec_struct foldName (statSlot_fields foldName) (api.stat_item s) statSlot.zero
  = (statSlot.Make s.2 (named.Make s.1), None).
Proof.
  intros [Hlo Hhi]. unfold dec_struct, api.stat_item. simpl fold_left.
  erewrite (member_at _ _ "base_stat" _ 0%nat); [| reflexivity | reflexivity].
  erewrite (member_at _ _ "stat" _ 1%nat); [| reflexivity | reflexivity].
  cbn [get set dec fst snd]. rewrite decode_name_object.
  unfold dec_int.
  apply Z.leb_le in Hlo. apply Z.ltb_lt in Hhi. rewrite Hlo, Hhi. reflexivity.
Qed.

Lemma decode_stage2 (n : string) :
  dec_struct foldName (secondStage_fields foldName) (api.stage2 n) secondStage.zero
  = (secondStage.Make (named.Make n), None).
Proof. reflexivity. Qed.

Lemma decode_stage1 (e : string * list string) :
  dec_struct foldName (firstStage_fields foldName) (api.stage1 e) firstStage.zero
  = (firstStage.Make (named.Make e.1)
       (Slice (map (fun n => secondStage.Make (named.Make n)) e.2) []), None).
Proof.
  unfold dec_struct, api.stage1. simpl fold_left.
  erewrite (member_at _ _ "species" _ 0%nat); [| reflexivity | reflexivity].
  erewrite (member_at _ _ "evolves_to" _ 1%nat); [| reflexivity | reflexivity].
  cbn [get set dec fst snd]. rewrite decode_name_object.
  cbn [firstStage.EvolvesTo firstStage.Species firstStage.zero fst snd].
  rewrite (dec_slice_map secondStage.zero _ api.stage2
             (fun n => secondStage.Make (named.Make n)) (fun _ => True));
    [reflexivity | intros n _; apply decode_stage2 | apply Forall_forall; auto].
Qed.

(** The species document decodes to its chain URL. *)
Lemma decode_species (chainURL : string) :
  Decode foldName (speciesResponse_fields foldName) (Doc (api.species chainURL))
    speciesResponse.zero
  = (speciesResponse.Make (linked.Make chainURL), None).
Proof. reflexivity. Qed.

Lemma decode_root (base : string) (evolutions : list (string * list string)) :
  dec_struct foldName (chainNode_fields foldName)
    (JObject [("species", api.name_object base);
              ("evolves_to", JArray (map api.stage1 evolutions))])
    chainNode.zero
  = (chainNode.Make (named.Make base)
       (Slice
          (map (fun e =>
                  firstStage.Make (named.Make e.1)
                    (Slice (map (fun n => secondStage.Make (named.Make n)) e.2) []))
               evolutions) []),
     None).
Proof.
  unfold dec_struct. simpl fold_left.
  erewrite (member_at _ _ "species" _ 0%nat); [| reflexivity | reflexivity].
  erewrite (member_at _ _ "evolves_to" _ 1%nat); [| reflexivity | reflexivity].
  cbn [get set dec fst snd]. rewrite decode_name_object.
  cbn [chainNode.EvolvesTo chainNode.Species chainNode.zero fst snd].
  rewrite (dec_slice_map firstStage.zero _ api.stage1
             (fun e =>
                firstStage.Make (named.Make e.1)
                  (Slice (map (fun n => secondStage.Make (named.Make n)) e.2) []))
             (fun _ => True));
    [reflexivity | intros e _; apply decode_stage1 | apply Forall_forall; auto].
Qed.

(** The evolution-chain document decodes to its tree. *)
Lemma decode_chain (base : string) (evolutions : list (string * list string)) :
  Decode foldName (chainResponse_fields foldName) (Doc (api.chain base evolutions))
    chainResponse.zero
  = (chainResponse.Make
       (chainNode.Make (named.Make base)
          (Slice
             (map (fun e =>
                     firstStage.Make (named.Make e.1)
                       (Slice (map (fun n => secondStage.Make (named.Make n)) e.2) []))
                  evolutions) [])),
     None).
Proof.
  unfold Decode, dec_struct at 1, api.chain. simpl fold_left.
  erewrite (member_at _ _ "chain" _ 0%nat); [| reflexivity | reflexivity].
  cbn [get set dec fst snd].
  change (chainResponse.Chain chainResponse.zero) with chainNode.zero.
  rewrite decode_root. reflexivity.
Qed.

(** The chain document of a base species and its evolutions, served at the
    URL that the species document names, comes back as the base name
    followed by each evolution and its own evolutions. *)
Theorem fetchEvolutions_of_documents
    (speciesURL chainURL base : string) (evolutions : list (string * list string)) :
  http_Get 1 speciesURL = GetReturns (Doc (api.species chainURL)) ->
  http_Get 2 chainURL = GetReturns (Doc (api.chain base evolutions)) ->
  fetchEvolutions foldName http_Get speciesURL
  = base :: concat (map (fun e => e.1 :: e.2) evolutions).
Proof.
  intros H1 H2. unfold fetchEvolutions.
  rewrite H1, decode_species. simpl. rewrite H2, decode_chain. simpl.
  rewrite flatten_preorder. unfold preorder. simpl. f_equal.
  rewrite map_map. f_equal. apply map_ext. intros e. simpl.
  rewrite map_map. simpl. rewrite map_id. reflexivity.
Qed.

(** The detail document decodes to its data. *)
Lemma decode_detail (name : string) (types : list string) (stats : list (string * Z))
    (sprite speciesURL : string) :
  Forall (fun s => - 2 ^ 63 <= s.2 < 2 ^ 63) stats ->
  Decode foldName (pokeAPIResponse_fields foldName)
    (Doc (api.detail name types stats sprite speciesURL)) pokeAPIResponse.zero
  = (pokeAPIResponse.Make name
       (Slice (map (fun n => typeSlot.Make (named.Make n)) types) [])
       (Slice (map (fun s => statSlot.Make s.2 (named.Make s.1)) stats) [])
       (sprites.Make (other.Make (official.Make sprite)))
       (linked.Make speciesURL),
     None).
Proof.
  intros Hstats. unfold Decode, dec_struct at 1, api.detail. simpl fold_left.
  erewrite (member_at _ _ "name" _ 0%nat); [| reflexivity | reflexivity].
  erewrite (member_at _ _ "types" _ 1%nat); [| reflexivity | reflexivity].
  erewrite (member_at _ _ "stats" _ 2%nat); [| reflexivity | reflexivity].
  erewrite (member_at _ _ "sprites" _ 3%nat); [| reflexivity | reflexivity].
  erewrite (member_at _ _ "species" _ 4%nat); [| reflexivity | reflexivity].
  cbn [get set dec fst snd dec_string pokeAPIResponse.Name pokeAPIResponse.Types
       pokeAPIResponse.Stats pokeAPIResponse.Sprites pokeAPIResponse.Species
       pokeAPIResponse.zero].
  rewrite (dec_slice_map typeSlot.zero _ api.type_item
             (fun n => typeSlot.Make (named.Make n)) (fun _ => True));
    [| intros n _; apply decode_type_item | apply Forall_forall; auto].
  rewrite (dec_slice_map statSlot.zero _ api.stat_item
             (fun s => statSlot.Make s.2 (named.Make s.1))
             (fun s => - 2 ^ 63 <= s.2 < 2 ^ 63));
    [| intros s Hs; apply decode_stat_item; exact Hs | exact Hstats].
  reflexivity.
Qed.

(** The detail document of a Pokemon, served at the detail URL, comes back
    as its record: the same name, types and sprite, the stats written into
    the map in order, and the evolutions fetched from its species URL.
    The base stats have to fit a Go [int]. *)
Theorem fetchPokemon_of_document
    (id : Z) (name : string) (types : list string) (stats : list (string * Z))
    (sprite speciesURL : string) :
  http_Get 0 (pokemon_url id)
  = GetReturns (Doc (api.detail name types stats sprite speciesURL)) ->
  Forall (fun s => - 2 ^ 63 <= s.2 < 2 ^ 63) stats ->
  fetchPokemon foldName http_Get id
  = ({| pokemonData.Name := name;
        pokemonData.Types := types;
        pokemonData.Stats := fold_left (fun m s => <[ s.1 := s.2 ]> m) stats ∅;
        pokemonData.Sprite := sprite;
        pokemonData.Evolutions := fetchEvolutions foldName http_Get speciesURL |},
     None).
Proof.
  intros Hget Hstats. unfold fetchPokemon.
  rewrite Hget, (decode_detail _ _ _ _ _ Hstats).
  unfold assemble. simpl. f_equal. f_equal.
  - rewrite fold_left_map, (fold_left_snoc (fun n : string => n)), map_id. reflexivity.
  - rewrite fold_left_map. reflexivity.
Qed.

End RoundTrips.

(** * Further properties of the small functions *)

(** Distinct identifiers are fetched from distinct detail URLs. *)
Theorem pokemon_url_distinct (id id' : Z) :
  id <> id' -> pokemon_url id <> pokemon_url id'.
Proof.
  intros Hne Heq. apply Hne. unfold pokemon_url in Heq.
  apply (inj (String.app "https://pokeapi.co/api/v2/pokemon/")) in Heq.
  apply (inj pretty) in Heq. exact Heq.
Qed.

(** [env] treats an empty variable as an unset one: it returns the value
    of the variable when that is not empty and the default otherwise, so
    with a non-empty default it never returns the empty string. *)
Theorem env_never_empty (Getenv : string -> string) (name def : string) :
  def <> "" ->
  env Getenv name def <> ""
  /\ (Getenv name <> "" -> env Getenv name def = Getenv name)
  /\ (Getenv name = "" -> env Getenv name def = def).
Proof.
  intros Hdef. unfold env. cbv zeta.
  case_bool_decide as Hv.
  - split; [exact Hdef |]. split; [intros H; contradiction | reflexivity].
  - split; [exact Hv |]. split; [reflexivity | intros H; contradiction].
Qed.

(** The address [main] listens on always has a host and a port: each is
    the value of its variable, or its default ["0.0.0.0"] or ["8080"] when
    the variable is unset or empty. *)
Theorem listen_host_port (Getenv : string -> string) :
  exists host port,
    listen Getenv = host +:+ ":" +:+ port
    /\ host <> "" /\ port <> ""
    /\ (host = Getenv "ADDR" \/ Getenv "ADDR" = "" /\ host = "0.0.0.0")
    /\ (port = Getenv "PORT" \/ Getenv "PORT" = "" /\ port = "8080").
Proof.
  exists (env Getenv "ADDR" "0.0.0.0"), (env Getenv "PORT" "8080").
  split; [reflexivity |]. unfold env. cbv zeta.
  do 2 case_bool_decide; repeat split; auto; discriminate.
Qed.

(** On a string that starts with an ASCII byte the helper keeps the length
    and is idempotent: a second application changes nothing. *)
Theorem title_ascii_idempotent (c : ascii) (rest : string) :
  (N_of_ascii c < 128)%N ->
  title (title (String c rest)) = title (String c rest)
  /\ String.length (title (String c rest)) = String.length (String c rest).
Proof.
  intros Hc. rewrite (title_ascii c rest Hc).
  split; [| reflexivity].
  destruct ((97 <=? N_of_ascii c)%N && (N_of_ascii c <=? 122)%N) eqn:Hlow.
  - apply andb_true_iff in Hlow. destruct Hlow as [Hlo Hhi].
    apply N.leb_le in Hlo. apply N.leb_le in Hhi.
    assert (E : N_of_ascii (ascii_of_N (N_of_ascii c - 32)) = (N_of_ascii c - 32)%N)
      by (apply N_ascii_embedding; lia).
    rewrite title_ascii by (rewrite E; lia). rewrite E.
    replace ((97 <=? N_of_ascii c - 32)%N) with false; [reflexivity |].
    symmetry. apply N.leb_gt. lia.
  - rewrite title_ascii by exact Hc. rewrite Hlow. reflexivity.
Qed.

(** * The further properties on the sample environment *)

Lemma index_failure_before_render_witness :
  let net := sample.http_Get_first 0 in
  (fetchPokemon sample.foldName net (spec_id "cafard" 151)).2 = Some sample.unreachable
  /\ index sample.foldName net sample.Error sample.Getenv sample.ParseFS fresh
       {| Query := ∅ |}
     = Returns (Writer (Some 500) ("dial tcp: connection refused" +:+ newline), None).
Proof.
  intros net. split; [reflexivity |].
  exact (proj2 (index_failure_before_render sample.foldName net sample.Error
                  sample.Getenv {| Query := ∅ |} sample.unreachable)
               sample.tmpl eq_refl).
Defined.

Lemma index_render_failure_witness :
  exists w,
    index sample.foldName sample.http_Get sample.Error sample.Getenv
      (inl faults.fails_late) fresh {| Query := ∅ |}
    = Returns (w, None)
    /\ sent w = "<h1>Hypno" +:+ ("template: index.tmpl.html: broken" +:+ newline)
    /\ status_sent w = 200.
Proof.
  exact (index_render_failure sample.foldName sample.http_Get sample.Error
           sample.Getenv faults.fails_late {| Query := ∅ |}
           (fetchPokemon sample.foldName sample.http_Get 97).1
           [ "<h1>"; "Hypno" ] faults.broken eq_refl eq_refl).
Defined.

Lemma index_log_on_success_witness :
  is_Some (Some ("cafard", "hypno"))
  <-> exists tmpl,
        sample.ParseFS = inl tmpl
        /\ (fetchPokemon sample.foldName sample.http_Get (spec_id "cafard" 151)).2 = None
        /\ (tmpl title
              (page sample.Getenv "cafard" (spec_id "cafard" 151)
                 (fetchPokemon sample.foldName sample.http_Get
                    (spec_id "cafard" 151)).1)).2 = None.
Proof.
  exact (proj1 (index_log_on_success sample.foldName sample.http_Get sample.Error
                  sample.Getenv sample.ParseFS {| Query := ∅ |}
                  (Writer (Some 200) "<h1>Hypno</h1>drowzeehypno")
                  (Some ("cafard", "hypno")) eq_refl)).
Defined.

Lemma fetchPokemon_error_zero_witness :
  (fetchPokemon sample.foldName (sample.http_Get_first 0) 97).2 = Some sample.unreachable
  /\ (fetchPokemon sample.foldName (sample.http_Get_first 0) 97).1 = pokemonData.zero.
Proof.
  split; [reflexivity |].
  exact (fetchPokemon_error_zero sample.foldName (sample.http_Get_first 0) 97
           sample.unreachable eq_refl).
Defined.

Lemma fetchPokemon_types_in_order_witness :
  pokemonData.Types (fetchPokemon sample.foldName sample.http_Get 97).1 = ["psychic"].
Proof.
  exact (fetchPokemon_types_in_order sample.foldName sample.http_Get 97
           (Doc sample.detail)
           (Decode sample.foldName (pokeAPIResponse_fields sample.foldName)
              (Doc sample.detail) pokeAPIResponse.zero).1
           eq_refl eq_refl).
Defined.

Lemma fetchPokemon_stats_keys_witness :
  (is_Some (pokemonData.Stats (fetchPokemon sample.foldName sample.http_Get 97).1 !! "hp")
   <-> exists s,
         In s [statSlot.Make 85 (named.Make "hp"); statSlot.Make 73 (named.Make "attack");
               statSlot.Make 67 (named.Make "speed")]
         /\ named.Name (statSlot.Stat s) = "hp")
  /\ (size (pokemonData.Stats (fetchPokemon sample.foldName sample.http_Get 97).1) <= 3)%nat.
Proof.
  exact (fetchPokemon_stats_keys sample.foldName sample.http_Get 97
           (Doc sample.detail)
           (Decode sample.foldName (pokeAPIResponse_fields sample.foldName)
              (Doc sample.detail) pokeAPIResponse.zero).1
           "hp" eq_refl eq_refl).
Defined.

Lemma sample_stat_names_distinct :
  List.NoDup ["hp"; "attack"; "speed"].
Proof.
  repeat constructor; simpl; intuition discriminate.
Qed.

Lemma fetchPokemon_stats_distinct_witness :
  size (pokemonData.Stats (fetchPokemon sample.foldName sample.http_Get 97).1) = 3%nat
  /\ pokemonData.Stats (fetchPokemon sample.foldName sample.http_Get 97).1 !! "speed"
     = Some 67.
Proof.
  destruct (fetchPokemon_stats_distinct sample.foldName sample.http_Get 97
              (Doc sample.detail)
              (Decode sample.foldName (pokeAPIResponse_fields sample.foldName)
                 (Doc sample.detail) pokeAPIResponse.zero).1
              eq_refl eq_refl sample_stat_names_distinct) as [Hsize Hall].
  split; [exact Hsize |].
  apply (Hall (statSlot.Make 67 (named.Make "speed"))).
  right. right. left. reflexivity.
Defined.

Lemma fetchEvolutions_length_witness :
  List.length (fetchEvolutions sample.foldName sample.http_Get "branching-species")
  = 5%nat.
Proof.
  exact (fetchEvolutions_length sample.foldName sample.http_Get "branching-species"
           _ _ eq_refl eq_refl).
Defined.

Lemma fetchEvolutions_no_chain_url_witness :
  let net :=
    sample.http_Get_but sample.species_url
      (GetReturns (Doc (JObject [("name", JString "hypno")]))) in
  missing sample.foldName (speciesResponse_fields sample.foldName) "evolution_chain"
    [("name", JString "hypno")]
  /\ fetchEvolutions sample.foldName net sample.species_url = [].
Proof.
  intros net.
  assert (Hmiss : missing sample.foldName (speciesResponse_fields sample.foldName)
                    "evolution_chain" [("name", JString "hypno")]).
  { repeat constructor. vm_compute. discriminate. }
  split; [exact Hmiss |].
  exact (fetchEvolutions_no_chain_url sample.foldName net sample.species_url
           (Doc (JObject [("name", JString "hypno")])) eq_refl
           (or_intror (ex_intro _ [("name", JString "hypno")] (conj eq_refl Hmiss)))).
Defined.

Lemma fetchPokemon_three_requests_witness :
  let net' := fun (n : nat) (url : string) =>
    if (3 <=? n)%nat then GetReturns (Doc JNull)
    else if (n =? 0)%nat && negb (bool_decide (url = pokemon_url 97))
         then GetReturns (Doc JNull)
         else sample.http_Get n url in
  net' 0%nat (pokemon_url 98) <> sample.http_Get 0 (pokemon_url 98)
  /\ fetchPokemon sample.foldName net' 97
     = fetchPokemon sample.foldName sample.http_Get 97.
Proof.
  intros net'. split; [vm_compute; discriminate |].
  apply (fetchPokemon_three_requests sample.foldName sample.http_Get net' 97).
  - reflexivity.
  - intros url. reflexivity.
  - intros url. reflexivity.
Defined.

Lemma fetchEvolutions_of_documents_witness :
  let net := fun (n : nat) (url : string) =>
    if bool_decide (url = "species/133") then GetReturns (Doc (api.species "chain/67"))
    else if bool_decide (url = "chain/67") then
      GetReturns (Doc (api.chain "eevee" [("vaporeon", []); ("jolteon", ["x"])]))
    else GetFails sample.unreachable in
  fetchEvolutions sample.foldName net "species/133"
  = ["eevee"; "vaporeon"; "jolteon"; "x"].
Proof.
  intros net.
  exact (fetchEvolutions_of_documents sample.foldName net "species/133" "chain/67"
           "eevee" [("vaporeon", []); ("jolteon", ["x"])] eq_refl eq_refl).
Defined.

Lemma fetchPokemon_of_document_witness :
  let net := fun (n : nat) (url : string) =>
    if bool_decide (url = pokemon_url 25) then
      GetReturns (Doc (api.detail "pikachu" ["electric"] [("hp", 35); ("speed", 90)]
                         "25.png" "species/25"))
    else GetFails sample.unreachable in
  fetchPokemon sample.foldName net 25
  = (pokemonData.Make "pikachu" ["electric"] (<[ "speed" := 90 ]> {[ "hp" := 35 ]})
       "25.png" [], None).
Proof.
  intros net.
  refine (eq_trans
            (fetchPokemon_of_document sample.foldName net 25 "pikachu" ["electric"]
               [("hp", 35); ("speed", 90)] "25.png" "species/25" eq_refl _) _).
  - repeat constructor; simpl; lia.
  - vm_compute. reflexivity.
Defined.

Lemma pokemon_url_distinct_witness : pokemon_url 97 <> pokemon_url 98.
Proof. apply (pokemon_url_distinct 97 98). lia. Defined.

Lemma env_never_empty_witness :
  let Getenv := fun name : string => if bool_decide (name = "PORT") then "9000" else "" in
  env Getenv "PORT" "8080" = "9000" /\ env Getenv "ADDR" "0.0.0.0" = "0.0.0.0".
Proof.
  intros Getenv.
  destruct (env_never_empty Getenv "PORT" "8080") as (_ & Hset & _); [discriminate |].
  destruct (env_never_empty Getenv "ADDR" "0.0.0.0") as (_ & _ & Hunset); [discriminate |].
  split; [apply Hset; discriminate | apply Hunset; reflexivity].
Defined.

Lemma title_ascii_idempotent_witness :
  title (title "pikachu") = title "pikachu"
  /\ String.length (title "pikachu") = String.length "pikachu".
Proof.
  apply (title_ascii_idempotent "p"%char "ikachu"). vm_compute. reflexivity.
Defined.

(** * Missing fields of a whole response *)

Section Missing.

Variable foldName : string -> string.
Variable http_Get : nat -> string -> get_result.

(** The fields of a struct are distinct places with distinct tags. *)
Definition lens {T : Type} (fs : list (field T)) : Prop :=
  lawful fs
  /\ (forall f, In f fs -> forall (x : ftype f) (v : T), get f (set f x v) = x)
  /\ NoDup (map tag fs).

Ltac lens_fields lawful_lemma :=
  split; [exact lawful_lemma |];
  split;
  [ intros f Hf x v; simpl in Hf;
    repeat (destruct Hf as [<- | Hf]; [reflexivity |]); contradiction
  | apply (bool_decide_unpack _); vm_compute; exact I ].

Lemma named_lens : lens named_fields.
Proof. lens_fields named_lawful. Qed.

Lemma linked_lens : lens linked_fields.
Proof. lens_fields linked_lawful. Qed.

Lemma typeSlot_lens : lens (typeSlot_fields foldName).
Proof. lens_fields (typeSlot_lawful foldName). Qed.

Lemma statSlot_lens : lens (statSlot_fields foldName).
Proof. lens_fields (statSlot_lawful foldName). Qed.

Lemma official_lens : lens official_fields.
Proof. lens_fields official_lawful. Qed.

Lemma other_lens : lens (other_fields foldName).
Proof. lens_fields (other_lawful foldName). Qed.

Lemma sprites_lens : lens (sprites_fields foldName).
Proof. lens_fields (sprites_lawful foldName). Qed.

Lemma pokeAPIResponse_lens : lens (pokeAPIResponse_fields foldName).
Proof. lens_fields (pokeAPIResponse_lawful foldName). Qed.

Lemma speciesResponse_lens : lens (speciesResponse_fields foldName).
Proof. lens_fields (speciesResponse_lawful foldName). Qed.

Lemma secondStage_lens : lens (secondStage_fields foldName).
Proof. lens_fields (secondStage_lawful foldName). Qed.

Lemma firstStage_lens : lens (firstStage_fields foldName).
Proof. lens_fields (firstStage_lawful foldName). Qed.

Lemma chainNode_lens : lens (chainNode_fields foldName).
Proof. lens_fields (chainNode_lawful foldName). Qed.

Lemma chainResponse_lens : lens (chainResponse_fields foldName).
Proof. lens_fields (chainResponse_lawful foldName). Qed.

(** A key folds to the same name as the tag of the field it selects. *)
Lemma field_for_fold {T : Type} (fs : list (field T)) (key : string) (g : field T) :
  field_for foldName fs key = Some g -> foldName key = foldName (tag g).
Proof.
  unfold field_for.
  destruct (find (fun f => bool_decide (tag f = key)) fs) as [g' |] eqn:Hexact.
  - intros [= <-]. apply find_some in Hexact. destruct Hexact as [_ Htag].
    apply bool_decide_eq_true in Htag. rewrite Htag. reflexivity.
  - intros Hfold. apply find_some in Hfold. destruct Hfold as [_ Htag].
    apply bool_decide_eq_true in Htag. symmetry. exact Htag.
Qed.

(** Two fields of a struct with the same tag are the same field. *)
Lemma tag_inj {T : Type} (fs : list (field T)) (f g : field T) :
  NoDup (map tag fs) -> In f fs -> In g fs -> tag f = tag g -> f = g.
Proof.
  induction fs as [| a fs IH]; intros Hnd Hf Hg Htag; [destruct Hf |].
  simpl in Hnd. apply NoDup_cons in Hnd. destruct Hnd as [Hnotin Hnd].
  assert (Hin : forall h, In h fs -> tag a <> tag h).
  { intros h Hh Heq. apply Hnotin. rewrite Heq. apply list_elem_of_In.
    apply (in_map tag). exact Hh. }
  destruct Hf as [<- | Hf], Hg as [<- | Hg].
  - reflexivity.
  - exfalso. exact (Hin g Hg Htag).
  - exfalso. exact (Hin f Hf (eq_sym Htag)).
  - apply IH; assumption.
Qed.

(** In an object with distinct keys, a field holds what its one member
    decodes to from the value the field had, and keeps that value when no
    member selects it. *)
Lemma object_read {T : Type} (fs : list (field T)) (f : field T)
    (ms : list (string * json)) (acc : T * option error) :
  lens fs -> In f fs ->
  NoDup (map (fun m : string * json => foldName m.1) ms) ->
  get f (fold_left (member foldName fs) ms acc).1
  = match find (fun m => bool_decide (tag <$> field_for foldName fs m.1 = Some (tag f))) ms with
    | Some m => (dec f m.2 (get f acc.1)).1
    | None => get f acc.1
    end.
Proof.
  intros (Hlaw & Hset & Htags) Hf. revert acc.
  induction ms as [| m ms IH]; intros acc Hnd; [reflexivity |].
  simpl in Hnd. apply NoDup_cons in Hnd. destruct Hnd as [Hnotin Hnd].
  cbn [find fold_left]. case_bool_decide as Hsel.
  - destruct (field_for foldName fs m.1) as [g |] eqn:Hg; [| discriminate Hsel].
    injection Hsel as Htag.
    assert (g = f) as ->
      by (apply (tag_inj fs); [exact Htags | exact (field_for_In _ _ _ _ Hg) | exact Hf
                              | exact Htag]).
    rewrite members_other; [| exact Hlaw | exact Hf |].
    + unfold member. rewrite Hg. unfold store.
      destruct (dec f m.2 (get f acc.1)) as [x e]. simpl. apply Hset. exact Hf.
    + apply List.Forall_forall. intros m' Hm' Hsel'.
      destruct (field_for foldName fs m'.1) as [g' |] eqn:Hg'; [| discriminate Hsel'].
      injection Hsel' as Htag'.
      apply Hnotin. apply list_elem_of_In.
      replace (foldName m.1) with (foldName m'.1).
      * apply (in_map (fun m : string * json => foldName m.1)). exact Hm'.
      * rewrite (field_for_fold _ _ _ Hg'), (field_for_fold _ _ _ Hg), Htag'.
        reflexivity.
  - rewrite IH by exact Hnd.
    rewrite (member_other foldName fs f acc m Hlaw Hf Hsel). reflexivity.
Qed.

Lemma distinct_keys_object (ms : list (string * json)) :
  distinct_keys foldName (JObject ms) = true
  <-> NoDup (map (fun m : string * json => foldName m.1) ms)
      /\ Forall (fun m => distinct_keys foldName m.2 = true) ms.
Proof.
  simpl. rewrite andb_true_iff, bool_decide_eq_true.
  apply and_iff_compat_l.
  induction ms as [| [k v] ms IH]; [split; [constructor | reflexivity] |].
  rewrite andb_true_iff, IH. split.
  - intros [Hv Hms]. constructor; assumption.
  - intros H. inversion H; subst. auto.
Qed.

Lemma distinct_keys_array (l : list json) :
  distinct_keys foldName (JArray l) = true
  <-> Forall (fun x => distinct_keys foldName x = true) l.
Proof.
  simpl. induction l as [| x l IH]; [split; [constructor | reflexivity] |].
  rewrite andb_true_iff, IH. split.
  - intros [Hx Hl]. constructor; assumption.
  - intros H. inversion H; subst. auto.
Qed.

(** The keys stay distinct below a path step and in the items of an array. *)
Lemma distinct_member {T : Type} (fs : list (field T)) (key : string) (j jv : json) :
  distinct_keys foldName j = true -> member_for foldName fs key j = Some jv ->
  distinct_keys foldName jv = true.
Proof.
  destruct j; try discriminate. intros Hd Hm. unfold member_for in Hm.
  apply distinct_keys_object in Hd. destruct Hd as [_ Hall].
  destruct (find _ members) as [m |] eqn:Hfind; [| discriminate Hm].
  injection Hm as <-. apply find_some in Hfind. destruct Hfind as [Hin _].
  exact (proj1 (List.Forall_forall _ _) Hall m Hin).
Qed.

Lemma distinct_items (o : option json) (x : json) :
  (forall j, o = Some j -> distinct_keys foldName j = true) ->
  In x (items o) -> distinct_keys foldName x = true.
Proof.
  intros Hd Hx. destruct o as [[] |]; try destruct Hx.
  specialize (Hd _ eq_refl). apply distinct_keys_array in Hd.
  exact (proj1 (List.Forall_forall _ _) Hd x Hx).
Qed.

(** Decoded from a document with distinct keys, a field holds what the
    member at its path step decodes to, and keeps its value when the
    document has no such member. *)
Lemma struct_read {T : Type} (fs : list (field T)) (n : nat) (f : field T)
    (j : json) (v : T) :
  lens fs -> nth_error fs n = Some f -> distinct_keys foldName j = true ->
  get f (dec_struct foldName fs j v).1
  = match member_for foldName fs (tag f) j with
    | Some jv => (dec f jv (get f v)).1
    | None => get f v
    end.
Proof.
  intros Hlens Hn Hd. destruct j; try reflexivity.
  apply distinct_keys_object in Hd. destruct Hd as [Hnd _].
  unfold dec_struct, member_for.
  rewrite (object_read fs f members (v, None) Hlens (nth_error_In _ _ Hn) Hnd).
  destruct (find _ members) as [m |]; reflexivity.
Qed.

(** A slice decoded for the first time holds, in order, what the items of
    the array decode to from zero values; it is empty when the value is
    missing or is not an array. *)
Lemma slice_read {E : Type} (zero : E) (d : decoder E) (j : json) :
  elems (dec_slice zero d j nil_slice).1 = map (fun x => (d x zero).1) (items (Some j)).
Proof.
  destruct j as [| b | n | s | [| x l] | ms]; try reflexivity.
  unfold dec_slice. change (elems nil_slice ++ spare nil_slice) with (@nil E).
  pose proof (array_elems_fresh zero d (x :: l)) as [H _].
  destruct (array_elems zero d (x :: l) []) as [[xs rest] e]. exact H.
Qed.

Ltac read_field fs n j zero lens_lemma Hd :=
  let H := fresh "Hread" in
  pose proof (struct_read fs n _ j zero lens_lemma eq_refl Hd) as H;
  cbn [get tag dec ftype] in H; rewrite H; clear H.

Lemma read_named (j : json) :
  distinct_keys foldName j = true ->
  named.Name (dec_struct foldName named_fields j named.zero).1
  = text (member_for foldName named_fields "name" j).
Proof.
  intros Hd. read_field named_fields 0%nat j named.zero named_lens Hd.
  destruct (member_for foldName named_fields "name" j) as [[] |]; reflexivity.
Qed.

Lemma read_linked (j : json) :
  distinct_keys foldName j = true ->
  linked.URL (dec_struct foldName linked_fields j linked.zero).1
  = text (member_for foldName linked_fields "url" j).
Proof.
  intros Hd. read_field linked_fields 0%nat j linked.zero linked_lens Hd.
  destruct (member_for foldName linked_fields "url" j) as [[] |]; reflexivity.
Qed.

Lemma read_typeSlot (t : json) :
  distinct_keys foldName t = true ->
  named.Name (typeSlot.Type_ (dec_struct foldName (typeSlot_fields foldName) t typeSlot.zero).1)
  = name_at foldName (typeSlot_fields foldName) "type" t.
Proof.
  intros Hd.
  read_field (typeSlot_fields foldName) 0%nat t typeSlot.zero typeSlot_lens Hd.
  unfold name_at.
  destruct (member_for foldName (typeSlot_fields foldName) "type" t) as [jv |] eqn:Hm;
    [| reflexivity].
  apply read_named. exact (distinct_member _ _ _ _ Hd Hm).
Qed.

Lemma read_statSlot (s : json) :
  distinct_keys foldName s = true ->
  named.Name (statSlot.Stat (dec_struct foldName (statSlot_fields foldName) s statSlot.zero).1)
  = name_at foldName (statSlot_fields foldName) "stat" s
  /\ statSlot.BaseStat (dec_struct foldName (statSlot_fields foldName) s statSlot.zero).1
     = integer (member_for foldName (statSlot_fields foldName) "base_stat" s).
Proof.
  intros Hd. split.
  - read_field (statSlot_fields foldName) 1%nat s statSlot.zero statSlot_lens Hd.
    unfold name_at.
    destruct (member_for foldName (statSlot_fields foldName) "stat" s) as [jv |] eqn:Hm;
      [| reflexivity].
    apply read_named. exact (distinct_member _ _ _ _ Hd Hm).
  - read_field (statSlot_fields foldName) 0%nat s statSlot.zero statSlot_lens Hd.
    destruct (member_for foldName (statSlot_fields foldName) "base_stat" s)
      as [[| b | [z |] | str | l | ms] |]; try reflexivity.
    simpl. destruct ((- 2 ^ 63 <=? z) && (z <? 2 ^ 63)); reflexivity.
Qed.

Lemma read_official (j : json) :
  distinct_keys foldName j = true ->
  official.Front (dec_struct foldName official_fields j official.zero).1
  = text (member_for foldName official_fields "front_default" j).
Proof.
  intros Hd. read_field official_fields 0%nat j official.zero official_lens Hd.
  destruct (member_for foldName official_fields "front_default" j) as [[] |]; reflexivity.
Qed.

Lemma read_other (j : json) :
  distinct_keys foldName j = true ->
  official.Front (other.Official (dec_struct foldName (other_fields foldName) j other.zero).1)
  = text (member_for foldName (other_fields foldName) "official-artwork" j
            ≫= member_for foldName official_fields "front_default").
Proof.
  intros Hd. read_field (other_fields foldName) 0%nat j other.zero other_lens Hd.
  destruct (member_for foldName (other_fields foldName) "official-artwork" j)
    as [jv |] eqn:Hm; [| reflexivity].
  apply read_official. exact (distinct_member _ _ _ _ Hd Hm).
Qed.

Lemma read_sprites (j : json) :
  distinct_keys foldName j = true ->
  official.Front
    (other.Official
       (sprites.Other (dec_struct foldName (sprites_fields foldName) j sprites.zero).1))
  = text ((member_for foldName (sprites_fields foldName) "other" j
             ≫= member_for foldName (other_fields foldName) "official-artwork")
            ≫= member_for foldName official_fields "front_default").
Proof.
  intros Hd. read_field (sprites_fields foldName) 0%nat j sprites.zero sprites_lens Hd.
  destruct (member_for foldName (sprites_fields foldName) "other" j)
    as [jv |] eqn:Hm; [| reflexivity].
  apply read_other. exact (distinct_member _ _ _ _ Hd Hm).
Qed.

(** The decoded detail response holds what its paths say. *)
Lemma read_detail (j : json) :
  distinct_keys foldName j = true ->
  let poke :=
    (dec_struct foldName (pokeAPIResponse_fields foldName) j pokeAPIResponse.zero).1 in
  pokeAPIResponse.Name poke
  = text (member_for foldName (pokeAPIResponse_fields foldName) "name" j)
  /\ map (fun t => named.Name (typeSlot.Type_ t)) (elems (pokeAPIResponse.Types poke))
     = map (name_at foldName (typeSlot_fields foldName) "type")
           (items (member_for foldName (pokeAPIResponse_fields foldName) "types" j))
  /\ map (fun s => (named.Name (statSlot.Stat s), statSlot.BaseStat s))
         (elems (pokeAPIResponse.Stats poke))
     = map (fun s =>
              (name_at foldName (statSlot_fields foldName) "stat" s,
               integer (member_for foldName (statSlot_fields foldName) "base_stat" s)))
           (items (member_for foldName (pokeAPIResponse_fields foldName) "stats" j))
  /\ official.Front (other.Official (sprites.Other (pokeAPIResponse.Sprites poke)))
     = text (((member_for foldName (pokeAPIResponse_fields foldName) "sprites" j
                 ≫= member_for foldName (sprites_fields foldName) "other")
                ≫= member_for foldName (other_fields foldName) "official-artwork")
               ≫= member_for foldName official_fields "front_default")
  /\ linked.URL (pokeAPIResponse.Species poke) = species_url_of foldName j.
Proof.
  intros Hd poke. subst poke. repeat split.
  - read_field (pokeAPIResponse_fields foldName) 0%nat j pokeAPIResponse.zero
      pokeAPIResponse_lens Hd.
    destruct (member_for foldName (pokeAPIResponse_fields foldName) "name" j)
      as [[] |]; reflexivity.
  - read_field (pokeAPIResponse_fields foldName) 1%nat j pokeAPIResponse.zero
      pokeAPIResponse_lens Hd.
    destruct (member_for foldName (pokeAPIResponse_fields foldName) "types" j)
      as [jv |] eqn:Hm; [| reflexivity].
    change (pokeAPIResponse.Types pokeAPIResponse.zero) with (@nil_slice typeSlot.t).
    rewrite slice_read, map_map. apply map_ext_in. intros t Ht.
    apply read_typeSlot. apply (distinct_items (Some jv)); [| exact Ht].
    intros j' [= <-]. exact (distinct_member _ _ _ _ Hd Hm).
  - read_field (pokeAPIResponse_fields foldName) 2%nat j pokeAPIResponse.zero
      pokeAPIResponse_lens Hd.
    destruct (member_for foldName (pokeAPIResponse_fields foldName) "stats" j)
      as [jv |] eqn:Hm; [| reflexivity].
    change (pokeAPIResponse.Stats pokeAPIResponse.zero) with (@nil_slice statSlot.t).
    rewrite slice_read, map_map. apply map_ext_in. intros s Hs.
    assert (Hds : distinct_keys foldName s = true).
    { apply (distinct_items (Some jv)); [| exact Hs].
      intros j' [= <-]. exact (distinct_member _ _ _ _ Hd Hm). }
    destruct (read_statSlot s Hds) as [-> ->]. reflexivity.
  - read_field (pokeAPIResponse_fields foldName) 3%nat j pokeAPIResponse.zero
      pokeAPIResponse_lens Hd.
    destruct (member_for foldName (pokeAPIResponse_fields foldName) "sprites" j)
      as [jv |] eqn:Hm; [| reflexivity].
    apply read_sprites. exact (distinct_member _ _ _ _ Hd Hm).
  - read_field (pokeAPIResponse_fields foldName) 4%nat j pokeAPIResponse.zero
      pokeAPIResponse_lens Hd.
    unfold species_url_of.
    destruct (member_for foldName (pokeAPIResponse_fields foldName) "species" j)
      as [jv |] eqn:Hm; [| reflexivity].
    apply read_linked. exact (distinct_member _ _ _ _ Hd Hm).
Qed.

(** The decoded species response holds the chain URL its path says. *)
Lemma read_species (j : json) :
  distinct_keys foldName j = true ->
  linked.URL
    (speciesResponse.EvolutionChain
       (dec_struct foldName (speciesResponse_fields foldName) j speciesResponse.zero).1)
  = chain_url_of foldName j.
Proof.
  intros Hd.
  read_field (speciesResponse_fields foldName) 0%nat j speciesResponse.zero
    speciesResponse_lens Hd.
  unfold chain_url_of.
  destruct (member_for foldName (speciesResponse_fields foldName) "evolution_chain" j)
    as [jv |] eqn:Hm; [| reflexivity].
  apply read_linked. exact (distinct_member _ _ _ _ Hd Hm).
Qed.

Lemma read_secondStage (j : json) :
  distinct_keys foldName j = true ->
  named.Name
    (secondStage.Species
       (dec_struct foldName (secondStage_fields foldName) j secondStage.zero).1)
  = name_at foldName (secondStage_fields foldName) "species" j.
Proof.
  intros Hd.
  read_field (secondStage_fields foldName) 0%nat j secondStage.zero secondStage_lens Hd.
  unfold name_at.
  destruct (member_for foldName (secondStage_fields foldName) "species" j)
    as [jv |] eqn:Hm; [| reflexivity].
  apply read_named. exact (distinct_member _ _ _ _ Hd Hm).
Qed.

Lemma read_firstStage (j : json) :
  distinct_keys foldName j = true ->
  let e := (dec_struct foldName (firstStage_fields foldName) j firstStage.zero).1 in
  named.Name (firstStage.Species e)
  = name_at foldName (firstStage_fields foldName) "species" j
  /\ map (fun f => named.Name (secondStage.Species f)) (elems (firstStage.EvolvesTo e))
     = map (name_at foldName (secondStage_fields foldName) "species")
           (items (member_for foldName (firstStage_fields foldName) "evolves_to" j)).
Proof.
  intros Hd e. subst e. split.
  - read_field (firstStage_fields foldName) 0%nat j firstStage.zero firstStage_lens Hd.
    unfold name_at.
    destruct (member_for foldName (firstStage_fields foldName) "species" j)
      as [jv |] eqn:Hm; [| reflexivity].
    apply read_named. exact (distinct_member _ _ _ _ Hd Hm).
  - read_field (firstStage_fields foldName) 1%nat j firstStage.zero firstStage_lens Hd.
    destruct (member_for foldName (firstStage_fields foldName) "evolves_to" j)
      as [jv |] eqn:Hm; [| reflexivity].
    change (firstStage.EvolvesTo firstStage.zero) with (@nil_slice secondStage.t).
    rewrite slice_read, map_map. apply map_ext_in. intros f Hf.
    apply read_secondStage. apply (distinct_items (Some jv)); [| exact Hf].
    intros j' [= <-]. exact (distinct_member _ _ _ _ Hd Hm).
Qed.

(** The pre-order list of the decoded evolution chain is the list of names
    its paths say. *)
Lemma read_chain (j : json) :
  distinct_keys foldName j = true ->
  preorder (dec_struct foldName (chainResponse_fields foldName) j chainResponse.zero).1
  = evolutions_of foldName j.
Proof.
  intros Hd. unfold preorder, evolutions_of. cbv zeta.
  read_field (chainResponse_fields foldName) 0%nat j chainResponse.zero
    chainResponse_lens Hd.
  destruct (member_for foldName (chainResponse_fields foldName) "chain" j)
    as [root |] eqn:Hroot; [| reflexivity].
  assert (Hdr : distinct_keys foldName root = true)
    by exact (distinct_member _ _ _ _ Hd Hroot).
  change (chainResponse.Chain chainResponse.zero) with chainNode.zero.
  simpl mbind. f_equal.
  - read_field (chainNode_fields foldName) 0%nat root chainNode.zero chainNode_lens Hdr.
    destruct (member_for foldName (chainNode_fields foldName) "species" root)
      as [jv |] eqn:Hm; [| reflexivity].
    apply read_named. exact (distinct_member _ _ _ _ Hdr Hm).
  - f_equal.
    read_field (chainNode_fields foldName) 1%nat root chainNode.zero chainNode_lens Hdr.
    destruct (member_for foldName (chainNode_fields foldName) "evolves_to" root)
      as [jv |] eqn:Hm; [| reflexivity].
    change (chainNode.EvolvesTo chainNode.zero) with (@nil_slice firstStage.t).
    rewrite slice_read, map_map. apply map_ext_in. intros e He.
    assert (Hde : distinct_keys foldName e = true).
    { apply (distinct_items (Some jv)); [| exact He].
      intros j' [= <-]. exact (distinct_member _ _ _ _ Hdr Hm). }
    destruct (read_firstStage e Hde) as [-> ->]. reflexivity.
Qed.

(** ** Leaving members out causes no decode error *)

(** A decoder that saves no error on a document saves none on the document
    with members left out, whatever its target holds. *)
Definition absence_safe {A : Type} (d : decoder A) : Prop :=
  forall (j j' : json) (v v' : A),
    prune j j' -> (d j v).2 = None -> (d j' v').2 = None.

Lemma safe_string : absence_safe dec_string.
Proof.
  intros j j' v v' Hp H.
  destruct j; simpl in H; try discriminate H; inversion Hp; subst; reflexivity.
Qed.

Lemma safe_int : absence_safe dec_int.
Proof.
  intros j j' v v' Hp H.
  destruct j as [| b | [z |] | s | l | ms]; simpl in H; try discriminate H;
    inversion Hp; subst; [reflexivity |].
  simpl. destruct ((- 2 ^ 63 <=? z) && (z <? 2 ^ 63)); [reflexivity | discriminate H].
Qed.

Lemma saveError_None (saved new : option error) :
  saveError saved new = None <-> saved = None /\ new = None.
Proof. destruct saved, new; simpl; split; try intros [? ?]; auto; discriminate. Qed.

(** An error, once saved, stays. *)
Lemma members_error_stays {T : Type} (fs : list (field T))
    (ms : list (string * json)) (acc : T * option error) :
  (fold_left (member foldName fs) ms acc).2 = None -> acc.2 = None.
Proof.
  revert acc. induction ms as [| m ms IH]; intros acc H; [exact H |].
  simpl in H. apply IH in H. unfold member in H.
  destruct (field_for foldName fs m.1) as [f |]; [| exact H].
  unfold store in H. destruct (dec f m.2 (get f acc.1)) as [x e]. simpl in H.
  apply saveError_None in H. tauto.
Qed.

Lemma safe_members {T : Type} (fs : list (field T)) (ms ms' : list (string * json)) :
  (forall f, In f fs -> absence_safe (dec f)) ->
  prune_members ms ms' ->
  forall acc acc' : T * option error,
    (fold_left (member foldName fs) ms acc).2 = None -> acc'.2 = None ->
    (fold_left (member foldName fs) ms' acc').2 = None.
Proof.
  intros Hfs Hp. induction Hp as [| m ms ms' _ IH | k j j' ms ms' Hj _ IH];
    intros acc acc' H Hacc'.
  - exact Hacc'.
  - simpl in H. exact (IH _ acc' H Hacc').
  - simpl in H |- *. apply (IH _ _ H).
    apply members_error_stays in H. unfold member in H |- *. simpl in H |- *.
    destruct (field_for foldName fs k) as [f |] eqn:Hsel; [| exact Hacc'].
    unfold store in H |- *.
    destruct (dec f j (get f acc.1)) as [x e] eqn:Hdec. simpl in H.
    apply saveError_None in H. destruct H as [_ ->].
    pose proof (Hfs f (field_for_In _ _ _ _ Hsel) j j' (get f acc.1) (get f acc'.1) Hj)
      as Hsafe.
    rewrite Hdec in Hsafe. specialize (Hsafe eq_refl).
    destruct (dec f j' (get f acc'.1)) as [x' e']. simpl in Hsafe |- *.
    rewrite Hacc', Hsafe. reflexivity.
Qed.

Lemma prune_members_same (ms : list (string * json)) : prune_members ms ms.
Proof.
  induction ms as [| [k j] ms IH]; [constructor |].
  apply prune_keep; [apply prune_same | exact IH].
Qed.

Lemma safe_struct {T : Type} (fs : list (field T)) :
  (forall f, In f fs -> absence_safe (dec f)) ->
  absence_safe (dec_struct foldName fs).
Proof.
  intros Hfs j j' v v' Hp H.
  destruct j as [| b | n | s | l | ms]; simpl in H; try discriminate H.
  - inversion Hp; subst. reflexivity.
  - assert (Hms : exists ms', j' = JObject ms' /\ prune_members ms ms').
    { inversion Hp; subst; eauto using prune_members_same. }
    destruct Hms as (ms' & -> & Hms). simpl.
    exact (safe_members fs ms ms' Hfs Hms (v, None) (v', None) H eq_refl).
Qed.

Lemma safe_elems {E : Type} (zero : E) (d : decoder E) (l l' : list json) :
  absence_safe d -> Forall2 prune l l' ->
  forall b b' : list E,
    (array_elems zero d l b).2 = None -> (array_elems zero d l' b').2 = None.
Proof.
  intros Hd Hp. induction Hp as [| j j' l l' Hj _ IH]; intros b b' H; [reflexivity |].
  simpl in H |- *.
  destruct (d j (hd zero b)) as [x e] eqn:Hx.
  destruct (array_elems zero d l (tl b)) as [[xs rest] e1] eqn:Hxs.
  simpl in H. apply saveError_None in H. destruct H as [-> ->].
  pose proof (Hd j j' (hd zero b) (hd zero b') Hj) as Hsafe.
  rewrite Hx in Hsafe. specialize (Hsafe eq_refl).
  pose proof (IH (tl b) (tl b')) as Hrest. rewrite Hxs in Hrest.
  specialize (Hrest eq_refl).
  destruct (d j' (hd zero b')) as [x' e'].
  destruct (array_elems zero d l' (tl b')) as [[xs' rest'] e1'].
  simpl in Hsafe, Hrest |- *. rewrite Hsafe, Hrest. reflexivity.
Qed.

Lemma safe_slice {E : Type} (zero : E) (d : decoder E) :
  absence_safe d -> absence_safe (dec_slice zero d).
Proof.
  intros Hd j j' v v' Hp H.
  destruct j as [| b | n | s | l | ms]; simpl in H; try discriminate H.
  - inversion Hp; subst. reflexivity.
  - assert (Hl : exists l', j' = JArray l' /\ Forall2 prune l l').
    { inversion Hp; subst; [| eauto].
      exists l. split; [reflexivity |].
      clear. induction l; constructor; [apply prune_same | assumption]. }
    destruct Hl as (l' & -> & Hl).
    destruct Hl as [| x x' l l' Hx Hl]; [reflexivity |].
    unfold dec_slice in H |- *.
    pose proof (safe_elems zero d (x :: l) (x' :: l') Hd
                  (List.Forall2_cons x x' Hx Hl)
                  (elems v ++ spare v) (elems v' ++ spare v')) as Hsafe.
    destruct (array_elems zero d (x :: l) (elems v ++ spare v)) as [[xs rest] e].
    destruct (array_elems zero d (x' :: l') (elems v' ++ spare v')) as [[xs' rest'] e'].
    simpl in H, Hsafe |- *. exact (Hsafe H).
Qed.

Ltac safe_fields :=
  apply safe_struct; intros f Hf; simpl in Hf;
  repeat (destruct Hf as [<- | Hf]; [cbn [dec]; auto |]); contradiction.

Lemma safe_named : absence_safe (dec_struct foldName named_fields).
Proof. pose proof safe_string. safe_fields. Qed.

Lemma safe_linked : absence_safe (dec_struct foldName linked_fields).
Proof. pose proof safe_string. safe_fields. Qed.

Lemma safe_typeSlot : absence_safe (dec_struct foldName (typeSlot_fields foldName)).
Proof. pose proof safe_named. safe_fields. Qed.

Lemma safe_statSlot : absence_safe (dec_struct foldName (statSlot_fields foldName)).
Proof. pose proof safe_named. pose proof safe_int. safe_fields. Qed.

Lemma safe_official : absence_safe (dec_struct foldName official_fields).
Proof. pose proof safe_string. safe_fields. Qed.

Lemma safe_other : absence_safe (dec_struct foldName (other_fields foldName)).
Proof. pose proof safe_official. safe_fields. Qed.

Lemma safe_sprites : absence_safe (dec_struct foldName (sprites_fields foldName)).
Proof. pose proof safe_other. safe_fields. Qed.

Lemma safe_detail : absence_safe (dec_struct foldName (pokeAPIResponse_fields foldName)).
Proof.
  pose proof safe_string. pose proof safe_sprites. pose proof safe_linked.
  pose proof (safe_slice typeSlot.zero _ safe_typeSlot).
  pose proof (safe_slice statSlot.zero _ safe_statSlot).
  safe_fields.
Qed.

Lemma safe_species : absence_safe (dec_struct foldName (speciesResponse_fields foldName)).
Proof. pose proof safe_linked. safe_fields. Qed.

Lemma safe_secondStage : absence_safe (dec_struct foldName (secondStage_fields foldName)).
Proof. pose proof safe_named. safe_fields. Qed.

Lemma safe_firstStage : absence_safe (dec_struct foldName (firstStage_fields foldName)).
Proof.
  pose proof safe_named. pose proof (safe_slice secondStage.zero _ safe_secondStage).
  safe_fields.
Qed.

Lemma safe_chainNode : absence_safe (dec_struct foldName (chainNode_fields foldName)).
Proof.
  pose proof safe_named. pose proof (safe_slice firstStage.zero _ safe_firstStage).
  safe_fields.
Qed.

Lemma safe_chain : absence_safe (dec_struct foldName (chainResponse_fields foldName)).
Proof. pose proof safe_chainNode. safe_fields. Qed.

(** ** The assembly cannot panic *)

Lemma stats_loop_checked (l : list statSlot.t) (m : gmap string Z) :
  fold_left
    (fun acc s =>
       match acc with
       | Panics why => Panics why
       | Returns m =>
           map_store m (named.Name (statSlot.Stat s)) (statSlot.BaseStat s)
       end) l (Returns (Some m))
  = Returns
      (Some (fold_left
               (fun stats s =>
                  <[ named.Name (statSlot.Stat s) := statSlot.BaseStat s ]> stats) l m)).
Proof. revert m. induction l as [| s l IH]; intros m; simpl; [reflexivity | apply IH]. Qed.

Lemma assemble_checked_returns (poke : pokeAPIResponse.t) :
  assemble_checked foldName http_Get poke = Returns (assemble foldName http_Get poke).
Proof. unfold assemble_checked. cbv zeta. rewrite stats_loop_checked. reflexivity. Qed.

Lemma fetchPokemon_checked_returns (id : Z) :
  fetchPokemon_checked foldName http_Get id = Returns (fetchPokemon foldName http_Get id).
Proof.
  unfold fetchPokemon_checked, fetchPokemon.
  destruct (http_Get 0 (pokemon_url id)) as [err | b]; [reflexivity |].
  destruct (Decode foldName (pokeAPIResponse_fields foldName) b pokeAPIResponse.zero)
    as [poke [err |]]; [reflexivity |].
  rewrite assemble_checked_returns. reflexivity.
Qed.

(** ** The whole response *)

(** A field that no member of an object selects has no value at its path
    step. *)
Lemma missing_member_for {T : Type} (fs : list (field T)) (key : string)
    (ms : list (string * json)) :
  missing foldName fs key ms -> member_for foldName fs key (JObject ms) = None.
Proof.
  intros Hmiss. unfold member_for.
  induction Hmiss as [| m ms Hm _ IH]; [reflexivity |].
  cbn [find]. case_bool_decide as Hsel; [contradiction | exact IH].
Qed.

Lemma fold_left_pairs {A : Type} (k : A -> string) (b : A -> Z) (l : list A)
    (m : gmap string Z) :
  fold_left (fun stats s => <[ k s := b s ]> stats) l m
  = fold_left (fun stats (p : string * Z) => <[ p.1 := p.2 ]> stats)
      (map (fun s => (k s, b s)) l) m.
Proof. revert m. induction l as [| s l IH]; intros m; simpl; [reflexivity | apply IH]. Qed.

(** C8, as the code has it: in a response where no object repeats a key,
    every missing field takes its zero value at every depth. A field that
    no member selects has no value at its path, and a path without a value
    reads as the empty string, the empty list or zero. The record of
    [fetchPokemon] is what the paths of the detail response say when the
    response decodes, and the zero record with the error when it does not;
    the list of [fetchEvolutions] is what the paths of the evolution-chain
    response say, fetched from the URL at the path of the species
    response. Leaving members out of a response that decodes never makes
    it fail to decode, and the assembly of the record cannot panic. *)
Theorem missing_fields_zero :
  (forall (T : Type) (fs : list (field T)) (key : string) (ms : list (string * json)),
     missing foldName fs key ms ->
     member_for foldName fs key (JObject ms) = None)
  /\ (text None = "" /\ integer None = 0 /\ items None = [])
  /\ (forall (id : Z) (j : json),
        http_Get 0 (pokemon_url id) = GetReturns (Doc j) ->
        distinct_keys foldName j = true ->
        fetchPokemon foldName http_Get id
        = match (Decode foldName (pokeAPIResponse_fields foldName) (Doc j)
                   pokeAPIResponse.zero).2 with
          | None =>
              (described foldName j
                 (fetchEvolutions foldName http_Get (species_url_of foldName j)),
               None)
          | Some err => (pokemonData.zero, Some err)
          end)
  /\ (forall (speciesURL : string) (j1 j2 : json),
        http_Get 1 speciesURL = GetReturns (Doc j1) ->
        distinct_keys foldName j1 = true ->
        http_Get 2 (chain_url_of foldName j1) = GetReturns (Doc j2) ->
        distinct_keys foldName j2 = true ->
        fetchEvolutions foldName http_Get speciesURL = evolutions_of foldName j2)
  /\ (forall j j' : json,
        prune j j' ->
        ((Decode foldName (pokeAPIResponse_fields foldName) (Doc j)
            pokeAPIResponse.zero).2 = None ->
         (Decode foldName (pokeAPIResponse_fields foldName) (Doc j')
            pokeAPIResponse.zero).2 = None)
        /\ ((Decode foldName (speciesResponse_fields foldName) (Doc j)
               speciesResponse.zero).2 = None ->
            (Decode foldName (speciesResponse_fields foldName) (Doc j')
               speciesResponse.zero).2 = None)
        /\ ((Decode foldName (chainResponse_fields foldName) (Doc j)
               chainResponse.zero).2 = None ->
            (Decode foldName (chainResponse_fields foldName) (Doc j')
               chainResponse.zero).2 = None))
  /\ (forall id : Z,
        fetchPokemon_checked foldName http_Get id
        = Returns (fetchPokemon foldName http_Get id)).
Proof.
  split; [intros T fs key ms; apply missing_member_for |].
  split; [repeat split |].
  split; [| split; [| split]].
  - intros id j Hget Hd.
    destruct (read_detail j Hd) as (Hname & Htypes & Hstats & Hsprite & Hurl).
    unfold fetchPokemon. rewrite Hget. unfold Decode in *.
    destruct (dec_struct foldName (pokeAPIResponse_fields foldName) j
                pokeAPIResponse.zero) as [poke [err |]]; [reflexivity |].
    cbn [fst snd] in *.
    unfold assemble, described. f_equal.
    rewrite Hname, Hsprite, Hurl.
    rewrite (fold_left_snoc (fun t => named.Name (typeSlot.Type_ t))), Htypes.
    rewrite (fold_left_pairs (fun s => named.Name (statSlot.Stat s)) statSlot.BaseStat),
      Hstats.
    rewrite <- (fold_left_pairs
                  (name_at foldName (statSlot_fields foldName) "stat")
                  (fun s => integer (member_for foldName (statSlot_fields foldName)
                                       "base_stat" s))).
    reflexivity.
  - intros speciesURL j1 j2 H1 Hd1 H2 Hd2.
    rewrite (fetchEvolutions_answered foldName http_Get speciesURL (Doc j1) (Doc j2) H1).
    + rewrite flatten_preorder. apply read_chain. exact Hd2.
    + unfold Decode. rewrite (read_species j1 Hd1). exact H2.
  - intros j j' Hp. unfold Decode. repeat split.
    + apply safe_detail. exact Hp.
    + apply safe_species. exact Hp.
    + apply safe_chain. exact Hp.
  - apply fetchPokemon_checked_returns.
Qed.

End Missing.

(** With the [stats] member listed twice, the item of the second list is
    decoded into the element the first list left: its missing [base_stat]
    comes out as 1, not as zero. *)
Lemma repeated_key_not_zero :
  let net :=
    sample.http_Get_but "https://pokeapi.co/api/v2/pokemon/97"
      (GetReturns (Doc repeated.detail)) in
  missing sample.foldName (statSlot_fields sample.foldName) "base_stat"
    [("stat", JObject [("name", JString "c")])]
  /\ distinct_keys sample.foldName repeated.detail = false
  /\ fetchPokemon sample.foldName net 97
     = (pokemonData.Make "n" [] {[ "c" := 1 ]} "" [], None)
  /\ pokemonData.Stats (fetchPokemon sample.foldName net 97).1 !! "c" <> Some 0.
Proof.
  intros net. split; [repeat constructor; vm_compute; discriminate |].
  split; [vm_compute; reflexivity |].
  split; [vm_compute; reflexivity |].
  vm_compute. discriminate.
Qed.

Lemma missing_fields_zero_witness :
  let net :=
    sample.http_Get_but "https://pokeapi.co/api/v2/pokemon/97"
      (GetReturns (Doc sample.detail_partial)) in
  distinct_keys sample.foldName sample.detail_partial = true
  /\ fetchPokemon sample.foldName net 97
     = (pokemonData.Make "hypno" [""] {[ "" := 0 ]} "" [], None)
  /\ fetchEvolutions sample.foldName sample.http_Get "bare-species" = [""]
  /\ prune sample.detail (JObject [("name", JString "hypno")])
  /\ (Decode sample.foldName (pokeAPIResponse_fields sample.foldName)
        (Doc (JObject [("name", JString "hypno")])) pokeAPIResponse.zero).2 = None
  /\ fetchPokemon_checked sample.foldName net 97
     = Returns (pokemonData.Make "hypno" [""] {[ "" := 0 ]} "" [], None).
Proof.
  intros net.
  pose proof (missing_fields_zero sample.foldName net)
    as (_ & _ & Hdetail & _ & Hprune & Hchecked).
  pose proof (missing_fields_zero sample.foldName sample.http_Get)
    as (_ & _ & _ & Hevol & _ & _).
  assert (Hrec : fetchPokemon sample.foldName net 97
                 = (pokemonData.Make "hypno" [""] {[ "" := 0 ]} "" [], None)).
  { refine (eq_trans (Hdetail 97 sample.detail_partial eq_refl eq_refl) _).
    vm_compute. reflexivity. }
  assert (Hp : prune sample.detail (JObject [("name", JString "hypno")])).
  { apply prune_object. apply prune_drop. apply prune_keep; [apply prune_same |].
    repeat apply prune_drop. apply prune_done. }
  split; [reflexivity |]. split; [exact Hrec |].
  split.
  { exact (Hevol "bare-species"
             (JObject [("evolution_chain", JObject [("url", JString "bare")])])
             (JObject []) eq_refl eq_refl eq_refl eq_refl). }
  split; [exact Hp |].
  split; [exact (proj1 (Hprune _ _ Hp) eq_refl) |].
  rewrite Hchecked, Hrec. reflexivity.
Defined.
